(** * Orluncoin: a shallow embedding of the ledger core

    The development follows the TypeScript sources of the node:

    - [block.ts]           : the block record;
    - [transaction.ts]     : transactions, ids, validation, UTxO update;
    - [transactionPool.ts] : the pending-transaction pool;
    - [wallet.ts]          : the transaction builder and the balance;
    - [blockchain.ts]      : validation, fork choice, retargeting, mining;
    - [p2p.ts]             : the handling of peer messages.

    [utils.ts], from which [blockchain.ts] imports [hexToBinary], is not
    among the sources; that one function follows the specification.

    Conventions of the embedding.

    - A JavaScript [number] that the program uses as a counter, an index, a
      timestamp or a token amount is an integer [Z].  Where the program
      divides or exponentiates ([timestamp / 1000], [Math.pow(2, d)]) the
      value is a rational [Q]; the rounding of IEEE doubles is not part of
      the model.
    - A JavaScript [string] is a [string]; a template literal [`${a}${b}`]
      is the concatenation of the decimal rendering of its parts.
    - An array is a [list]; objects are records compared by value.
    - Module-level mutable variables ([blockchain], [unspentTxOuts],
      [transactionPool]) are the fields of an explicit [State] threaded
      through the operations; a [throw] is the [Throw] outcome.
    - [crypto-js/sha256] is the FIPS 180-4 function, written out below and
      checked on the literals of the genesis block.  The ECDSA operations of
      [elliptic] ([verify], [sign], key derivation) are parameters.
    - [Date.now()] is a parameter [now], and the key in the wallet file a
      parameter [walletKey].  Console output and the peer broadcasts have
      no effect on the ledger state; of a peer message only what the node
      sends in answer is recorded.
    - The [while (true)] loop of [findBlock] runs for a given number of
      iterations and answers [None] when they are used up. *)

From Stdlib Require Import ZArith QArith List String Ascii Bool Lia.
From Stdlib Require Import DecimalString Qpower.
Import ListNotations.

Local Open Scope string_scope.
Local Open Scope Z_scope.

(* ------------------------------------------------------------------ *)
(** ** SHA-256 (crypto-js/sha256), after FIPS 180-4 *)

Module Sha256.

Definition modulus : Z := 4294967296.

Definition add32 (x y : Z) : Z := (x + y) mod modulus.

Definition rotr (n x : Z) : Z :=
  Z.lor (Z.shiftr x n) ((Z.shiftl x (32 - n)) mod modulus).

Definition not32 (x : Z) : Z := modulus - 1 - x.

Definition ch (x y z : Z) : Z :=
  Z.lxor (Z.land x y) (Z.land (not32 x) z).

Definition maj (x y z : Z) : Z :=
  Z.lxor (Z.lxor (Z.land x y) (Z.land x z)) (Z.land y z).

Definition bsig0 (x : Z) : Z :=
  Z.lxor (Z.lxor (rotr 2 x) (rotr 13 x)) (rotr 22 x).

Definition bsig1 (x : Z) : Z :=
  Z.lxor (Z.lxor (rotr 6 x) (rotr 11 x)) (rotr 25 x).

Definition ssig0 (x : Z) : Z :=
  Z.lxor (Z.lxor (rotr 7 x) (rotr 18 x)) (Z.shiftr x 3).

Definition ssig1 (x : Z) : Z :=
  Z.lxor (Z.lxor (rotr 17 x) (rotr 19 x)) (Z.shiftr x 10).

(** Round constants: fractional parts of the cube roots of the first
    sixty-four primes. *)
Definition round_constants : list Z :=
[ 1116352408; 1899447441; 3049323471; 3921009573; 961987163; 1508970993;
  2453635748; 2870763221; 3624381080; 310598401; 607225278; 1426881987;
  1925078388; 2162078206; 2614888103; 3248222580; 3835390401; 4022224774;
  264347078; 604807628; 770255983; 1249150122; 1555081692; 1996064986;
  2554220882; 2821834349; 2952996808; 3210313671; 3336571891; 3584528711;
  113926993; 338241895; 666307205; 773529912; 1294757372; 1396182291;
  1695183700; 1986661051; 2177026350; 2456956037; 2730485921; 2820302411;
  3259730800; 3345764771; 3516065817; 3600352804; 4094571909; 275423344;
  430227734; 506948616; 659060556; 883997877; 958139571; 1322822218;
  1537002063; 1747873779; 1955562222; 2024104815; 2227730452; 2361852424;
  2428436474; 2756734187; 3204031479; 3329325298 ].

(** The eight working variables, also the chaining value. *)
Record regs := mkRegs { ra : Z; rb : Z; rc : Z; rd : Z;
                        re : Z; rf : Z; rg : Z; rh : Z }.

Definition initial : regs :=
  mkRegs 1779033703 3144134277 1013904242 2773480762
         1359893119 2600822924 528734635 1541459225.

(** Message schedule.  [rev_ws] holds W(t-1), W(t-2), ... *)
Definition next_word (rev_ws : list Z) : Z :=
  add32 (add32 (ssig1 (nth 1 rev_ws 0)) (nth 6 rev_ws 0))
        (add32 (ssig0 (nth 14 rev_ws 0)) (nth 15 rev_ws 0)).

Fixpoint extend (n : nat) (rev_ws : list Z) : list Z :=
  match n with
  | O => rev_ws
  | S n' => extend n' (next_word rev_ws :: rev_ws)
  end.

Definition schedule (block : list Z) : list Z :=
  rev (extend 48 (rev block)).

Definition round (r : regs) (kw : Z * Z) : regs :=
  let t1 := add32 (add32 (add32 (rh r) (bsig1 (re r)))
                         (add32 (ch (re r) (rf r) (rg r)) (fst kw)))
                  (snd kw) in
  let t2 := add32 (bsig0 (ra r)) (maj (ra r) (rb r) (rc r)) in
  mkRegs (add32 t1 t2) (ra r) (rb r) (rc r)
         (add32 (rd r) t1) (re r) (rf r) (rg r).

Definition compress (h : regs) (block : list Z) : regs :=
  let r := fold_left round (combine round_constants (schedule block)) h in
  mkRegs (add32 (ra h) (ra r)) (add32 (rb h) (rb r))
         (add32 (rc h) (rc r)) (add32 (rd h) (rd r))
         (add32 (re h) (re r)) (add32 (rf h) (rf r))
         (add32 (rg h) (rg r)) (add32 (rh h) (rh r)).

(** Padding: one bit, zeros up to 56 mod 64 bytes, the bit length on
    eight bytes. *)
Fixpoint be_bytes (n : nat) (x : Z) : list Z :=
  match n with
  | O => []
  | S n' => (Z.shiftr x (8 * Z.of_nat n')) mod 256 :: be_bytes n' x
  end.

Definition pad (msg : list Z) : list Z :=
  let len := Z.of_nat (List.length msg) in
  (msg ++ 128 :: repeat 0 (Z.to_nat ((55 - len) mod 64))
       ++ be_bytes 8 (8 * len))%list.

Fixpoint words (bs : list Z) : list Z :=
  match bs with
  | b3 :: b2 :: b1 :: b0 :: rest =>
      (((b3 * 256 + b2) * 256 + b1) * 256 + b0) :: words rest
  | _ => []
  end.

Fixpoint absorb (blocks : nat) (ws : list Z) (h : regs) : regs :=
  match blocks with
  | O => h
  | S n => absorb n (skipn 16 ws) (compress h (firstn 16 ws))
  end.

Definition bytes_of_string (s : string) : list Z :=
  map (fun c => Z.of_N (N_of_ascii c)) (list_ascii_of_string s).

Definition hex_digit (d : Z) : ascii :=
  if d <? 10 then ascii_of_N (Z.to_N (48 + d))
  else ascii_of_N (Z.to_N (87 + d)).

Fixpoint hex_word (n : nat) (x : Z) : string :=
  match n with
  | O => EmptyString
  | S n' => String (hex_digit ((Z.shiftr x (4 * Z.of_nat n')) mod 16))
                   (hex_word n' x)
  end.

Definition digest (h : regs) : string :=
  (hex_word 8 (ra h) ++ hex_word 8 (rb h) ++ hex_word 8 (rc h) ++
   hex_word 8 (rd h) ++ hex_word 8 (re h) ++ hex_word 8 (rf h) ++
   hex_word 8 (rg h) ++ hex_word 8 (rh h))%string.

(** [sha256(s).toString()]: the lower-case hexadecimal digest. *)
Definition sha256 (s : string) : string :=
  let ws := words (pad (bytes_of_string s)) in
  digest (absorb (Nat.div (List.length ws) 16) ws initial).

End Sha256.

Definition sha256 := Sha256.sha256.

(** Digests are computed on demand only. *)
Arguments sha256 s : simpl never.

(* ------------------------------------------------------------------ *)
(** ** JavaScript values used by the program *)

Module JS.

(** [`${n}`] for an integer [n]. *)
Definition str (n : Z) : string := NilZero.string_of_int (Z.to_int n).

(** [xs.join(sep)]. *)
Definition join (sep : string) (xs : list string) : string :=
  String.concat sep xs.

(** [xs.map((x, i) => f(x, i))]. *)
Fixpoint mapi_from {A B : Type} (i : Z) (f : A -> Z -> B) (xs : list A)
  : list B :=
  match xs with
  | [] => []
  | x :: rest => f x i :: mapi_from (i + 1) f rest
  end.

Definition mapi {A B : Type} (f : A -> Z -> B) (xs : list A) : list B :=
  mapi_from 0 f xs.

(** [xs.flatMap(f)]. *)
Definition flatMap {A B : Type} (f : A -> list B) (xs : list A) : list B :=
  flat_map f xs.

(** [/^[a-fA-F0-9]$/] on one character. *)
Definition is_hex (c : ascii) : bool :=
  let n := N_of_ascii c in
  ((48 <=? n) && (n <=? 57) || (65 <=? n) && (n <=? 70)
   || (97 <=? n) && (n <=? 102))%N.

(** [s.match('^[a-fA-F0-9]+$') !== null]. *)
Definition all_hex (s : string) : bool :=
  match s with
  | EmptyString => false
  | _ => forallb is_hex (list_ascii_of_string s)
  end.

End JS.

(** The outcome of a call: a value, or an exception that was thrown. *)
Inductive Outcome (A : Type) : Type :=
| Return (a : A)
| Throw (message : string).
Arguments Return {A} a.
Arguments Throw {A} message.

(* ------------------------------------------------------------------ *)
(** ** Entities ([transaction.ts], [block.ts]) *)

Module TxIn.
Record t := mk { txOutId : string; txOutIndex : Z; signature : string }.
Definition eqb (a b : t) : bool :=
  String.eqb (txOutId a) (txOutId b) && (txOutIndex a =? txOutIndex b)
  && String.eqb (signature a) (signature b).
End TxIn.

Module TxOut.
Record t := mk { address : string; amount : Z }.
Definition eqb (a b : t) : bool :=
  String.eqb (address a) (address b) && (amount a =? amount b).
End TxOut.

Module UnspentTxOut.
Record t := mk { txOutId : string; txOutIndex : Z;
                 address : string; amount : Z }.
Definition eqb (a b : t) : bool :=
  String.eqb (txOutId a) (txOutId b) && (txOutIndex a =? txOutIndex b)
  && String.eqb (address a) (address b) && (amount a =? amount b).
End UnspentTxOut.

(** Equality of two lists, element by element. *)
Fixpoint list_eqb {A : Type} (eqb : A -> A -> bool) (xs ys : list A) : bool :=
  match xs, ys with
  | [], [] => true
  | x :: xs', y :: ys' => eqb x y && list_eqb eqb xs' ys'
  | _, _ => false
  end.

Module Transaction.
Record t := mk { id : string; txIns : list TxIn.t; txOuts : list TxOut.t }.
Definition eqb (a b : t) : bool :=
  String.eqb (id a) (id b) && list_eqb TxIn.eqb (txIns a) (txIns b)
  && list_eqb TxOut.eqb (txOuts a) (txOuts b).
End Transaction.

Module Block.
Record t := mk { index : Z; timestamp : Z;
                 transactions : list Transaction.t;
                 hash : string; previousHash : string;
                 difficulty : Z; proof : Z }.
Definition eqb (a b : t) : bool :=
  (index a =? index b) && (timestamp a =? timestamp b)
  && list_eqb Transaction.eqb (transactions a) (transactions b)
  && String.eqb (hash a) (hash b)
  && String.eqb (previousHash a) (previousHash b)
  && (difficulty a =? difficulty b) && (proof a =? proof b).
End Block.

(** The module-level variables of [blockchain.ts] and
    [transactionPool.ts]. *)
Record State := mkState {
  blockchain : list Block.t;
  unspentTxOuts : list UnspentTxOut.t;
  transactionPool : list Transaction.t }.

(** Computations on the node state that may throw. *)
Definition M (A : Type) : Type := State -> Outcome A * State.

Definition ret {A : Type} (a : A) : M A := fun s => (Return a, s).

Definition throw {A : Type} (message : string) : M A :=
  fun s => (Throw message, s).

Definition bind {A B : Type} (c : M A) (k : A -> M B) : M B :=
  fun s =>
    match c s with
    | (Return a, s') => k a s'
    | (Throw message, s') => (Throw message, s')
    end.

Definition gets {A : Type} (f : State -> A) : M A := fun s => (Return (f s), s).

Definition modify (f : State -> State) : M unit := fun s => (Return tt, f s).

(** A pure call that may throw, run inside the state. *)
Definition lift {A : Type} (o : Outcome A) : M A := fun s => (o, s).

Notation "x <- c ;; k" := (bind c (fun x => k))
  (at level 61, c at next level, right associativity).
Notation "c ;;; k" := (bind c (fun _ => k))
  (at level 61, right associativity).

Definition set_blockchain (bs : list Block.t) (s : State) : State :=
  mkState bs (unspentTxOuts s) (transactionPool s).

Definition set_unspentTxOuts (us : list UnspentTxOut.t) (s : State) : State :=
  mkState (blockchain s) us (transactionPool s).

Definition set_transactionPool (ts : list Transaction.t) (s : State) : State :=
  mkState (blockchain s) (unspentTxOuts s) ts.

(* ------------------------------------------------------------------ *)
(** ** [transaction.ts] *)

Definition COINBASE_AMOUNT : Z := 50.

(** The (txOutId, txOutIndex) pair a transaction input refers to. *)
Definition outpoint (txIn : TxIn.t) : string * Z :=
  (TxIn.txOutId txIn, TxIn.txOutIndex txIn).

Definition getTransactionId (transaction : Transaction.t) : string :=
  let txInContent :=
    JS.join "" (map (fun txIn => TxIn.txOutId txIn ++ JS.str (TxIn.txOutIndex txIn))
                    (Transaction.txIns transaction)) in
  let txOutContent :=
    JS.join "" (map (fun txOut => TxOut.address txOut ++ JS.str (TxOut.amount txOut))
                    (Transaction.txOuts transaction)) in
  sha256 (txInContent ++ txOutContent).

Definition findUnspentTxOut (txOutId : string) (txOutIndex : Z)
    (unspentTxOuts : list UnspentTxOut.t) : option UnspentTxOut.t :=
  find (fun uTxO => String.eqb (UnspentTxOut.txOutId uTxO) txOutId
                    && (UnspentTxOut.txOutIndex uTxO =? txOutIndex))
       unspentTxOuts.

Definition getTxInAmount (txIn : TxIn.t) (unspentTxOuts : list UnspentTxOut.t)
  : Z :=
  match findUnspentTxOut (TxIn.txOutId txIn) (TxIn.txOutIndex txIn)
                         unspentTxOuts with
  | Some txOut => UnspentTxOut.amount txOut
  | None => 0
  end.

Definition validateAddress (address : string) : bool :=
  if negb (Nat.eqb (String.length address) 130) then false
  else if negb (JS.all_hex address) then false
  else if negb (String.prefix "04" address) then false
  else true.

(** The [typeof] tests hold of every value of the record types. *)
Definition validateTxInStructure (txIn : TxIn.t) : bool := true.

Definition validateTxOutStructure (txOut : TxOut.t) : bool :=
  if negb (validateAddress (TxOut.address txOut)) then false else true.

Definition validateTransactionStructure (transaction : Transaction.t) : bool :=
  if negb (forallb validateTxInStructure (Transaction.txIns transaction))
  then false
  else if negb (forallb validateTxOutStructure (Transaction.txOuts transaction))
  then false
  else true.

(** [validateCoinbaseTx]; the argument is [transactions[0]], which is
    [undefined] on an empty list. *)
Definition validateCoinbaseTx (transaction : option Transaction.t)
    (blockIndex : Z) : bool :=
  match transaction with
  | None => false
  | Some transaction =>
      if negb (String.eqb (getTransactionId transaction)
                          (Transaction.id transaction)) then false
      else if match Transaction.txIns transaction with
              | [txIn] => negb (TxIn.txOutIndex txIn =? blockIndex)
              | _ => true
              end then false
      else if match Transaction.txOuts transaction with
              | [txOut] => negb (TxOut.amount txOut =? COINBASE_AMOUNT)
              | _ => true
              end then false
      else true
  end.

(** [hasDuplicates]: [seen] is the [Set] of the keys met so far. *)
Fixpoint hasDuplicates_from (seen : list string) (txIns : list TxIn.t) : bool :=
  match txIns with
  | [] => false
  | txIn :: rest =>
      let id := TxIn.txOutId txIn ++ JS.str (TxIn.txOutIndex txIn) in
      if existsb (String.eqb id) seen then true
      else hasDuplicates_from (id :: seen) rest
  end.

Definition hasDuplicates (txIns : list TxIn.t) : bool :=
  hasDuplicates_from [] txIns.

Definition updateUnspentTxOuts (transactions : list Transaction.t)
    (unspentTxOuts : list UnspentTxOut.t) : list UnspentTxOut.t :=
  let newUnspentTxOuts :=
    JS.flatMap (fun transaction =>
      JS.mapi (fun txOut idx =>
                 UnspentTxOut.mk (Transaction.id transaction) idx
                                 (TxOut.address txOut) (TxOut.amount txOut))
              (Transaction.txOuts transaction)) transactions in
  let consumedTxOuts :=
    JS.flatMap (fun transaction => map outpoint (Transaction.txIns transaction))
               transactions in
  (filter (fun uTxO =>
       negb (existsb (fun txOut =>
                 String.eqb (fst txOut) (UnspentTxOut.txOutId uTxO)
                 && (snd txOut =? UnspentTxOut.txOutIndex uTxO))
               consumedTxOuts))
     unspentTxOuts
   ++ newUnspentTxOuts)%list.

Definition getCoinbaseTransaction (address : string) (blockIndex : Z)
  : Transaction.t :=
  let txIn := TxIn.mk "" blockIndex "" in
  let unidentified :=
    Transaction.mk "" [txIn] [TxOut.mk address COINBASE_AMOUNT] in
  Transaction.mk (getTransactionId unidentified)
                 (Transaction.txIns unidentified)
                 (Transaction.txOuts unidentified).

Section Ledger.

(** [ec.keyFromPublic(address, 'hex').verify(id, signature)]; a call on
    which the library raises counts as a failed verification. *)
Variable verify : string -> string -> string -> bool.

(** [ec.keyFromPrivate(privateKey, 'hex').sign(id).toDER('hex')]. *)
Variable sign : string -> string -> string.

(** [ec.keyFromPrivate(privateKey, 'hex').getPublic('hex')]. *)
Variable publicOf : string -> string.

(** [Date.now()]. *)
Variable now : Z.

Definition getPublicKey (privateKey : string) : string := publicOf privateKey.

Definition validateTxIn (txIn : TxIn.t) (transaction : Transaction.t)
    (unspentTxOuts : list UnspentTxOut.t) : bool :=
  match find (fun uTxO =>
                String.eqb (UnspentTxOut.txOutId uTxO) (TxIn.txOutId txIn)
                && (UnspentTxOut.txOutIndex uTxO =? TxIn.txOutIndex txIn))
             unspentTxOuts with
  | None => false
  | Some referencedUTxOut =>
      verify (UnspentTxOut.address referencedUTxOut)
             (Transaction.id transaction) (TxIn.signature txIn)
  end.

Definition validateTransaction (transaction : Transaction.t)
    (unspentTxOuts : list UnspentTxOut.t) : bool :=
  if negb (validateTransactionStructure transaction) then false
  else if negb (String.eqb (getTransactionId transaction)
                           (Transaction.id transaction)) then false
  else if negb (forallb (fun txIn => validateTxIn txIn transaction unspentTxOuts)
                        (Transaction.txIns transaction)) then false
  else
    let totalTxInValues :=
      fold_left (fun sum txIn => sum + getTxInAmount txIn unspentTxOuts)
                (Transaction.txIns transaction) 0 in
    let totalTxOutValues :=
      fold_left (fun sum txOut => sum + TxOut.amount txOut)
                (Transaction.txOuts transaction) 0 in
    if negb (totalTxInValues =? totalTxOutValues) then false else true.

Definition validateBlockTransactions (transactions : list Transaction.t)
    (unspentTxOuts : list UnspentTxOut.t) (blockIndex : Z) : bool :=
  let transaction := hd_error transactions in
  if negb (validateCoinbaseTx transaction blockIndex) then false
  else
    let txIns := JS.flatMap Transaction.txIns transactions in
    if hasDuplicates txIns then false
    else forallb (fun transaction =>
                    validateTransaction transaction unspentTxOuts)
                 (tl transactions).

Definition processTransactions (transactions : list Transaction.t)
    (unspentTxOuts : list UnspentTxOut.t) (blockIndex : Z)
  : Outcome (list UnspentTxOut.t) :=
  if negb (validateBlockTransactions transactions unspentTxOuts blockIndex)
  then Throw "Invalid block transactions."
  else Return (updateUnspentTxOuts transactions unspentTxOuts).

Definition signTxIn (transaction : Transaction.t) (txInIndex : nat)
    (privateKey : string) (unspentTxOuts : list UnspentTxOut.t)
  : Outcome string :=
  match nth_error (Transaction.txIns transaction) txInIndex with
  | None =>
      (* [txIn] is [undefined]: the callback of [find] fails on the first
         UTxO it is given *)
      match unspentTxOuts with
      | [] => Throw "Referenced unspent transaction output not found."
      | _ => Throw "TypeError"
      end
  | Some txIn =>
      match find (fun uTxO =>
                    String.eqb (UnspentTxOut.txOutId uTxO) (TxIn.txOutId txIn)
                    && (UnspentTxOut.txOutIndex uTxO =? TxIn.txOutIndex txIn))
                 unspentTxOuts with
      | None => Throw "Referenced unspent transaction output not found."
      | Some referencedUTxOut =>
          if negb (String.eqb (getPublicKey privateKey)
                              (UnspentTxOut.address referencedUTxOut))
          then Throw "Trying to sign an input with an invalid private key."
          else if negb (String.eqb (publicOf privateKey)
                                   (UnspentTxOut.address referencedUTxOut))
          then Throw "Trying to sign an input with an invalid private key."
          else Return (sign privateKey (Transaction.id transaction))
      end
  end.

(* ---------------------------------------------------------------- *)
(** ** [transactionPool.ts] *)

Definition getTxPoolIns (aTransactionPool : list Transaction.t)
  : list TxIn.t :=
  JS.flatMap Transaction.txIns aTransactionPool.

Definition isValidTxForPool (tx : Transaction.t)
    (aTransactionPool : list Transaction.t) : bool :=
  let txPoolIns := getTxPoolIns aTransactionPool in
  forallb (fun txIn =>
             negb (existsb (fun txPoolIn =>
                              (TxIn.txOutIndex txIn =? TxIn.txOutIndex txPoolIn)
                              && String.eqb (TxIn.txOutId txIn)
                                            (TxIn.txOutId txPoolIn))
                           txPoolIns))
          (Transaction.txIns tx).

Definition addToTransactionPool (transaction : Transaction.t)
    (unspentTxOuts : list UnspentTxOut.t) : M unit :=
  if negb (validateTransaction transaction unspentTxOuts)
  then throw "Trying to add invalid tx to pool"
  else
    pool <- gets transactionPool ;;
    if negb (isValidTxForPool transaction pool)
    then throw "Trying to add invalid tx to pool"
    else modify (fun s =>
           set_transactionPool (transactionPool s ++ [transaction])%list s).

Definition hasTxIn (txIn : TxIn.t) (unspentTxOuts : list UnspentTxOut.t)
  : bool :=
  existsb (fun uTxO =>
             String.eqb (UnspentTxOut.txOutId uTxO) (TxIn.txOutId txIn)
             && (UnspentTxOut.txOutIndex uTxO =? TxIn.txOutIndex txIn))
          unspentTxOuts.

Definition updateTransactionPool (unspentTxOuts : list UnspentTxOut.t)
  : M unit :=
  pool <- gets transactionPool ;;
  let invalidTxs :=
    filter (fun tx => existsb (fun txIn => negb (hasTxIn txIn unspentTxOuts))
                              (Transaction.txIns tx)) pool in
  if (0 <? Z.of_nat (List.length invalidTxs))
  then modify (set_transactionPool
                 (filter (fun tx => negb (existsb (Transaction.eqb tx) invalidTxs))
                         pool))
  else ret tt.

(* ---------------------------------------------------------------- *)
(** ** [wallet.ts] *)

(** The [for ... of] loop of [findTxOutsForAmount]; [rest] is what is
    left to iterate. *)
Fixpoint findTxOutsForAmount_loop (amount currentAmount : Z)
    (includedUnspentTxOuts rest : list UnspentTxOut.t)
  : Outcome (list UnspentTxOut.t * Z) :=
  match rest with
  | [] => Throw "Not enough coins to send transaction"
  | myUnspentTxOut :: rest' =>
      let includedUnspentTxOuts :=
        (includedUnspentTxOuts ++ [myUnspentTxOut])%list in
      let currentAmount := currentAmount + UnspentTxOut.amount myUnspentTxOut in
      if currentAmount >=? amount
      then Return (includedUnspentTxOuts, currentAmount - amount)
      else findTxOutsForAmount_loop amount currentAmount
                                    includedUnspentTxOuts rest'
  end.

Definition findTxOutsForAmount (amount : Z)
    (myUnspentTxOuts : list UnspentTxOut.t)
  : Outcome (list UnspentTxOut.t * Z) :=
  findTxOutsForAmount_loop amount 0 [] myUnspentTxOuts.

Definition createTxOuts (receiverAddress myAddress : string)
    (amount leftOverAmount : Z) : list TxOut.t :=
  let txOut1 := TxOut.mk receiverAddress amount in
  if leftOverAmount =? 0 then [txOut1]
  else [txOut1; TxOut.mk myAddress leftOverAmount].

Definition filterTxPoolTxs (unspentTxOuts : list UnspentTxOut.t)
    (transactionPool : list Transaction.t) : list UnspentTxOut.t :=
  let txIns := JS.flatMap Transaction.txIns transactionPool in
  let removable :=
    filter (fun unspentTxOut =>
              existsb (fun txIn =>
                         (TxIn.txOutIndex txIn =? UnspentTxOut.txOutIndex unspentTxOut)
                         && String.eqb (TxIn.txOutId txIn)
                                       (UnspentTxOut.txOutId unspentTxOut))
                      txIns)
           unspentTxOuts in
  filter (fun uTxO => negb (existsb (UnspentTxOut.eqb uTxO) removable))
         unspentTxOuts.

(** The signing [map] of [createTransaction].  The inputs are signed in
    order; each signature is computed from the id and the outpoint of the
    input, neither of which the assignment of a signature changes. *)
Fixpoint signTxIns (transaction : Transaction.t) (privateKey : string)
    (unspentTxOuts : list UnspentTxOut.t) (index : nat)
    (txIns : list TxIn.t) : Outcome (list TxIn.t) :=
  match txIns with
  | [] => Return []
  | txIn :: rest =>
      match signTxIn transaction index privateKey unspentTxOuts with
      | Throw message => Throw message
      | Return signature =>
          match signTxIns transaction privateKey unspentTxOuts (S index) rest with
          | Throw message => Throw message
          | Return signed =>
              Return (TxIn.mk (TxIn.txOutId txIn) (TxIn.txOutIndex txIn)
                              signature :: signed)
          end
      end
  end.

(** An unsigned input carries no signature yet; the field is not read
    before it is assigned. *)
Definition toUnsignedTxIn (unspentTxOut : UnspentTxOut.t) : TxIn.t :=
  TxIn.mk (UnspentTxOut.txOutId unspentTxOut)
          (UnspentTxOut.txOutIndex unspentTxOut) "".

Definition createTransaction (receiverAddress : string) (amount : Z)
    (privateKey : string) (transactionPool : list Transaction.t)
    (unspentTxOuts : list UnspentTxOut.t) : Outcome Transaction.t :=
  let myAddress := getPublicKey privateKey in
  let myUnspentTxOuts :=
    filter (fun uTxO => String.eqb (UnspentTxOut.address uTxO) myAddress)
           unspentTxOuts in
  let myUnspentTxOutsInPool :=
    filterTxPoolTxs myUnspentTxOuts transactionPool in
  match findTxOutsForAmount amount myUnspentTxOutsInPool with
  | Throw message => Throw message
  | Return (includedUnspentTxOuts, leftOverAmount) =>
      let unsignedTxIns := map toUnsignedTxIn includedUnspentTxOuts in
      let txOuts := createTxOuts receiverAddress myAddress amount leftOverAmount in
      let id := getTransactionId (Transaction.mk "" unsignedTxIns txOuts) in
      let transaction := Transaction.mk id unsignedTxIns txOuts in
      match signTxIns transaction privateKey unspentTxOuts 0 unsignedTxIns with
      | Throw message => Throw message
      | Return txIns => Return (Transaction.mk id txIns txOuts)
      end
  end.

(* ---------------------------------------------------------------- *)
(** ** [blockchain.ts] *)

(** [xs[i]] for an integer [i]: [undefined] outside the array. *)
Definition at_index {A : Type} (xs : list A) (i : Z) : option A :=
  if i <? 0 then None else nth_error xs (Z.to_nat i).

Definition genesisAddress : string :=
  "04bfcab8722991ae774db48f934ca79cfb7dd991229153b9f732ba5334aafcd8e7266e47076996b55a14bf9913ee3145ce0cfc1372ada8ada74bd287450313534a".

Definition genesisBlock : Block.t :=
  Block.mk 0 1734667274522
    [ Transaction.mk
        "e655f6a5f26dc9b4cac6e46f52336428287759cf81ef5ff10854f69d68f43fa3"
        [ TxIn.mk "" 0 "" ]
        [ TxOut.mk genesisAddress 50 ] ]
    "45dcbece109d098f2764e371d20e29c5ef3dcc10d985c6bc8d563d1fbdc82d9e"
    "" 0 0.

Definition BLOCK_GENERATION_INTERVAL : Z := 10.

Definition DIFFICULTY_ADJUSTMENT_INTERVAL : Z := 10.

(** [`${transactions}`]: the array is joined with commas and every
    transaction object renders as [[object Object]]. *)
Definition transactions_toString (transactions : list Transaction.t)
  : string :=
  JS.join "," (map (fun _ => "[object Object]") transactions).

Definition generateHash (index : Z) (previousHash : string) (timestamp : Z)
    (transactions : list Transaction.t) (difficulty proof : Z) : string :=
  sha256 (JS.str index ++ previousHash ++ JS.str timestamp
          ++ transactions_toString transactions
          ++ JS.str difficulty ++ JS.str proof).

Definition generateHashForBlock (block : Block.t) : string :=
  generateHash (Block.index block) (Block.previousHash block)
               (Block.timestamp block) (Block.transactions block)
               (Block.difficulty block) (Block.proof block).

(** [getLastBlock]; reading a field of the result throws on an empty
    chain. *)
Definition getLastBlock : M Block.t :=
  chain <- gets blockchain ;;
  match at_index chain (Z.of_nat (List.length chain) - 1) with
  | Some block => ret block
  | None => throw "TypeError"
  end.

(** The [typeof] tests hold of every value of the record type. *)
Definition validateBlockStructure (block : Block.t) : bool := true.

Definition validateTimestamp (newBlock previousBlock : Block.t) : bool :=
  (Block.timestamp previousBlock - 60 <? Block.timestamp newBlock)
  && (Block.timestamp newBlock - 60 <? now).

Definition validateNewBlock (newBlock previousBlock : Block.t) : bool :=
  if negb (validateBlockStructure newBlock) then false
  else if negb (Block.index newBlock =? Block.index previousBlock + 1)
  then false
  else if negb (String.eqb (Block.previousHash newBlock)
                           (Block.hash previousBlock)) then false
  else if negb (validateTimestamp newBlock previousBlock) then false
  else if negb (String.eqb (generateHashForBlock newBlock)
                           (Block.hash newBlock)) then false
  else true.

(** [addBlock]; [processTransactions] returns an array or throws, so the
    test [referencedUTxO === null] never succeeds. *)
Definition addBlock (newBlock : Block.t) : M bool :=
  previousBlock <- getLastBlock ;;
  if negb (validateNewBlock newBlock previousBlock) then ret false
  else
    current <- gets unspentTxOuts ;;
    referencedUTxO <- lift (processTransactions (Block.transactions newBlock)
                                                current (Block.index newBlock)) ;;
    modify (fun s => set_blockchain (blockchain s ++ [newBlock])%list s) ;;;
    modify (set_unspentTxOuts referencedUTxO) ;;;
    ret true.

(** [JSON.stringify(a) === JSON.stringify(b)], where either side may be
    [undefined]. *)
Definition same_json (a b : option Block.t) : bool :=
  match a, b with
  | Some x, Some y => Block.eqb x y
  | None, None => true
  | _, _ => false
  end.

(** The [for] loop of [validateChain]; [previous] is [block[i - 1]] and
    is absent exactly when [i = 0]. *)
Fixpoint validateChain_loop (previous : option Block.t)
    (rest : list Block.t) (unspentTxOuts : list UnspentTxOut.t)
  : Outcome (option (list UnspentTxOut.t)) :=
  match rest with
  | [] => Return (Some unspentTxOuts)
  | currentBlock :: rest' =>
      if match previous with
         | Some previousBlock => negb (validateNewBlock currentBlock previousBlock)
         | None => false
         end
      then Return None
      else
        match processTransactions (Block.transactions currentBlock)
                                  unspentTxOuts (Block.index currentBlock) with
        | Throw message => Throw message
        | Return unspentTxOuts' =>
            validateChain_loop (Some currentBlock) rest' unspentTxOuts'
        end
  end.

Definition validateChain (block : list Block.t)
  : M (option (list UnspentTxOut.t)) :=
  chain <- gets blockchain ;;
  if negb (same_json (hd_error block) (hd_error chain)) then ret None
  else lift (validateChain_loop None block []).

Definition Qltb (x y : Q) : bool := negb (Qle_bool y x).

(** [Math.pow(2, d)] summed over the chain. *)
Definition getAccumulatedDifficulty (blockchain : list Block.t) : Q :=
  fold_left Qplus
    (map (fun difficulty => Qpower 2 difficulty)
         (map Block.difficulty blockchain))
    0%Q.

Definition replaceChain (newChain : list Block.t) : M bool :=
  unspentTxOuts <- validateChain newChain ;;
  match unspentTxOuts with
  | None => ret false
  | Some unspentTxOuts =>
      chain <- gets blockchain ;;
      if Qltb (getAccumulatedDifficulty newChain)
              (getAccumulatedDifficulty chain) then ret false
      else if (Z.of_nat (List.length newChain) <=? Z.of_nat (List.length chain))
      then ret false
      else
        modify (set_blockchain newChain) ;;;
        modify (set_unspentTxOuts unspentTxOuts) ;;;
        updateTransactionPool unspentTxOuts ;;;
        ret true
  end.

Definition adjustDifficulty (blockchain : list Block.t) (lastBlock : Block.t)
  : Outcome Z :=
  match at_index blockchain
          (Z.of_nat (List.length blockchain) - DIFFICULTY_ADJUSTMENT_INTERVAL) with
  | None => Throw "TypeError"
  | Some lastAdjustmentBlock =>
      let timeExpected : Q :=
        inject_Z (BLOCK_GENERATION_INTERVAL * DIFFICULTY_ADJUSTMENT_INTERVAL) in
      let timeTaken : Q :=
        (inject_Z (Block.timestamp lastBlock) / 1000
         - inject_Z (Block.timestamp lastAdjustmentBlock) / 1000)%Q in
      if Qltb timeTaken (timeExpected / 2)%Q
      then Return (Block.difficulty lastAdjustmentBlock + 1)
      else if Qltb (timeExpected * 2)%Q timeTaken
      then Return (Block.difficulty lastAdjustmentBlock - 1)
      else Return (Block.difficulty lastAdjustmentBlock)
  end.

Definition getDifficulty (blockchain : list Block.t) : Outcome Z :=
  match at_index blockchain (Z.of_nat (List.length blockchain) - 1) with
  | None => Throw "TypeError"
  | Some lastBlock =>
      if (Z.rem (Block.index lastBlock) DIFFICULTY_ADJUSTMENT_INTERVAL =? 0)
         && negb (Block.index lastBlock =? 0)
      then adjustDifficulty blockchain lastBlock
      else Return (Block.difficulty lastBlock)
  end.

End Ledger.

(** Modelled from the spec: [hexToBinary] of [utils.ts], which the sources
    import but do not contain.  The spec gives it as the conversion of a
    hexadecimal string to its string of binary digits, four per character;
    [checkHashDifficulty] tests its result for [null], returned here on a
    character that is not a hexadecimal digit. *)
Definition hex_value (c : ascii) : option Z :=
  let n := Z.of_N (N_of_ascii c) in
  if (48 <=? n) && (n <=? 57) then Some (n - 48)
  else if (97 <=? n) && (n <=? 102) then Some (n - 87)
  else if (65 <=? n) && (n <=? 70) then Some (n - 55)
  else None.

Definition bit_char (b : bool) : ascii := if b then "1"%char else "0"%char.

Definition nibble_bits (v : Z) : string :=
  String (bit_char (Z.testbit v 3)) (String (bit_char (Z.testbit v 2))
    (String (bit_char (Z.testbit v 1)) (String (bit_char (Z.testbit v 0)) ""))).

Fixpoint hexToBinary (s : string) : option string :=
  match s with
  | EmptyString => Some ""
  | String c rest =>
      match hex_value c, hexToBinary rest with
      | Some v, Some bits => Some (nibble_bits v ++ bits)
      | _, _ => None
      end
  end.

(** ['0'.repeat(n)] for a natural number [n]. *)
Fixpoint zeros (n : nat) : string :=
  match n with
  | O => ""
  | S n' => String "0"%char (zeros n')
  end.

(** [checkHashDifficulty]; [repeat] throws on a negative count, and the
    empty string is falsy like [null]. *)
Definition checkHashDifficulty (hash : string) (difficulty : Z) : Outcome bool :=
  let binary := hexToBinary hash in
  if difficulty <? 0 then Throw "RangeError"
  else
    let requiredPrefix := zeros (Z.to_nat difficulty) in
    match binary with
    | None => Return false
    | Some EmptyString => Return false
    | Some binary => Return (String.prefix requiredPrefix binary)
    end.

(* ------------------------------------------------------------------ *)
(** ** The statements of the specification, in its own words *)

(** Transaction id: "for each input [`${txOutId}${txOutIndex}`], joined". *)
Fixpoint inputs_content (txIns : list TxIn.t) : string :=
  match txIns with
  | [] => ""
  | txIn :: rest =>
      TxIn.txOutId txIn ++ JS.str (TxIn.txOutIndex txIn) ++ inputs_content rest
  end.

(** "then for each output [`${address}${amount}`], joined". *)
Fixpoint outputs_content (txOuts : list TxOut.t) : string :=
  match txOuts with
  | [] => ""
  | txOut :: rest =>
      TxOut.address txOut ++ JS.str (TxOut.amount txOut) ++ outputs_content rest
  end.

(** A modification of the signature fields: the inputs receive the given
    signatures in order; inputs beyond the list keep theirs. *)
Fixpoint setSignatures (signatures : list string) (txIns : list TxIn.t)
  : list TxIn.t :=
  match txIns, signatures with
  | txIn :: rest, signature :: signatures' =>
      TxIn.mk (TxIn.txOutId txIn) (TxIn.txOutIndex txIn) signature
      :: setSignatures signatures' rest
  | _, _ => txIns
  end.

Definition withSignatures (signatures : list string) (tx : Transaction.t)
  : Transaction.t :=
  Transaction.mk (Transaction.id tx)
                 (setSignatures signatures (Transaction.txIns tx))
                 (Transaction.txOuts tx).

(** Coinbase rules as the specification words them. *)
Definition coinbase_rules_specified (tx : Transaction.t) (blockIndex : Z) : Prop :=
  (exists txIn, Transaction.txIns tx = [txIn]
                /\ TxIn.txOutId txIn = ""
                /\ TxIn.txOutIndex txIn = blockIndex
                /\ TxIn.signature txIn = "")
  /\ (exists txOut, Transaction.txOuts tx = [txOut]
                    /\ TxOut.amount txOut = COINBASE_AMOUNT)
  /\ Transaction.id tx = getTransactionId tx.

(** Coinbase rules as [validateCoinbaseTx] tests them. *)
Definition coinbase_rules_checked (tx : Transaction.t) (blockIndex : Z) : Prop :=
  (exists txIn, Transaction.txIns tx = [txIn]
                /\ TxIn.txOutIndex txIn = blockIndex)
  /\ (exists txOut, Transaction.txOuts tx = [txOut]
                    /\ TxOut.amount txOut = COINBASE_AMOUNT)
  /\ Transaction.id tx = getTransactionId tx.

(** Timestamp rule of the specification: one minute on both sides. *)
Definition timestamp_rule_one_minute (now : Z) (newBlock previousBlock : Block.t)
  : Prop :=
  Block.timestamp previousBlock - 60000 < Block.timestamp newBlock
  /\ Block.timestamp newBlock - 60000 < now.

(** No pooled transaction consumes an outpoint that [tx] consumes. *)
Definition pool_disjoint (tx : Transaction.t) (pool : list Transaction.t) : Prop :=
  forall pooled txPoolIn txIn,
    In pooled pool -> In txPoolIn (Transaction.txIns pooled) ->
    In txIn (Transaction.txIns tx) ->
    outpoint txPoolIn <> outpoint txIn.

(** A transaction with the id its contents derive. *)
Definition identified (txIns : list TxIn.t) (txOuts : list TxOut.t)
  : Transaction.t :=
  Transaction.mk (getTransactionId (Transaction.mk "" txIns txOuts)) txIns txOuts.

(** A block on top of [previous] with the hash its contents derive. *)
Definition blockOn (previous : Block.t) (timestamp difficulty proof : Z)
    (transactions : list Transaction.t) : Block.t :=
  let index := Block.index previous + 1 in
  Block.mk index timestamp transactions
    (generateHash index (Block.hash previous) timestamp transactions
                  difficulty proof)
    (Block.hash previous) difficulty proof.

(** The state of a node that has just started: the genesis block and the
    outputs of its transactions. *)
Definition initialState : State :=
  mkState [genesisBlock]
          (updateUnspentTxOuts (Block.transactions genesisBlock) [])
          [].

(** Two transactions of a block of index 1 whose inputs refer to three
    different outpoints; the keys of ("a1", 2) and ("a", 12) are both
    "a12". *)
Definition collidingTransactions : list Transaction.t :=
  [ getCoinbaseTransaction genesisAddress 1;
    identified [ TxIn.mk "a1" 2 ""; TxIn.mk "a" 12 "" ] [] ].

(** A reward transaction for block 1 whose input names an output id and
    carries a signature. *)
Definition strayCoinbase : Transaction.t :=
  identified [ TxIn.mk "ab" 1 "00" ] [ TxOut.mk genesisAddress 50 ].

(** A block stamped 59,999 ms before the genesis block. *)
Definition earlyBlock : Block.t :=
  blockOn genesisBlock (1734667274522 - 59999) 0 0
          [ getCoinbaseTransaction genesisAddress 1 ].

(** A block on top of the genesis block that states difficulty 20 and
    carries the first proof tried. *)
Definition unminedBlock : Block.t :=
  blockOn genesisBlock 1734667284522 20 0
          [ getCoinbaseTransaction genesisAddress 1 ].

(** Retargeting as the specification words it, in milliseconds: one more
    below 50 s, one less above 200 s, unchanged otherwise. *)
Definition retarget (adjustmentBlock lastBlock : Block.t) : Z :=
  let elapsed := Block.timestamp lastBlock - Block.timestamp adjustmentBlock in
  if elapsed <? 50000 then Block.difficulty adjustmentBlock + 1
  else if 200000 <? elapsed then Block.difficulty adjustmentBlock - 1
  else Block.difficulty adjustmentBlock.

(** The next difficulty as the specification words it: at a last index
    [N] that is a non-zero multiple of ten, retarget from the block of
    index [N - 10]; otherwise keep the last difficulty. *)
Definition getDifficulty_specified (chain : list Block.t) : option Z :=
  match at_index chain (Z.of_nat (List.length chain) - 1) with
  | None => None
  | Some lastBlock =>
      let N := Block.index lastBlock in
      if (N mod 10 =? 0) && negb (N =? 0)
      then match find (fun block => Block.index block =? N - 10) chain with
           | Some adjustmentBlock => Some (retarget adjustmentBlock lastBlock)
           | None => None
           end
      else Some (Block.difficulty lastBlock)
  end.

(** Every block of the chain sits at the position of its index, counted
    from [i]. *)
Fixpoint indexed_from (i : Z) (chain : list Block.t) : bool :=
  match chain with
  | [] => true
  | block :: rest => (Block.index block =? i) && indexed_from (i + 1) rest
  end.

(** The chain extended by one reward-only block of difficulty 0 per
    timestamp. *)
Fixpoint growChain (chain : list Block.t) (lastBlock : Block.t)
    (timestamps : list Z) : list Block.t :=
  match timestamps with
  | [] => chain
  | timestamp :: rest =>
      let block :=
        blockOn lastBlock timestamp 0 0
                [ getCoinbaseTransaction genesisAddress (Block.index lastBlock + 1) ] in
      growChain (chain ++ [block])%list block rest
  end.

(** Eleven blocks: the first mined 1000 s after the genesis block, the
    others 10 s apart. *)
Definition slowStartChain : list Block.t :=
  growChain [genesisBlock] genesisBlock
    (map (fun k => 1734667274522 + 1000000 + 10000 * k)
         [0; 1; 2; 3; 4; 5; 6; 7; 8; 9]).

Definition slowStartFront : list Block.t := removelast slowStartChain.

Definition slowStartLast : Block.t := last slowStartChain genesisBlock.










(** A stand-in for the key pairs of [elliptic], used to run the program on
    examples: the public key of [k] is "04" followed by [k]; a signature
    names the signer and the message, and verifies against exactly that
    public key and message. *)
Definition demoPublicOf (privateKey : string) : string := "04" ++ privateKey.

Definition demoSign (privateKey message : string) : string :=
  demoPublicOf privateKey ++ ":" ++ message.

Definition demoVerify (address message signature : string) : bool :=
  String.eqb signature (address ++ ":" ++ message).

(** The key whose public key is the address of the genesis reward. *)
Definition genesisKey : string := substring 2 128 genesisAddress.

Definition otherAddress : string :=
  "04a1b2c3d4e5f60718293a4b5c6d7e8f90a1b2c3d4e5f60718293a4b5c6d7e8f90a1b2c3d4e5f60718293a4b5c6d7e8f90a1b2c3d4e5f60718293a4b5c6d7e8f90".

(** A transfer of the given outpoints to [receiver], signed with
    [privateKey]. *)
Definition demoTransfer (privateKey : string) (outpoints : list (string * Z))
    (txOuts : list TxOut.t) : Transaction.t :=
  let unsigned := map (fun o => TxIn.mk (fst o) (snd o) "") outpoints in
  let id := getTransactionId (Transaction.mk "" unsigned txOuts) in
  Transaction.mk id
    (map (fun o => TxIn.mk (fst o) (snd o) (demoSign privateKey id)) outpoints)
    txOuts.

(** The reward of block 1 paid to the genesis address, and the reward of
    block 10 paid to that address without its first character: "1" followed
    by "04bf..." and "10" followed by "4bf..." are the same string, so the
    two transactions have the same id. *)
Definition rewardOfOne : Transaction.t :=
  getCoinbaseTransaction genesisAddress 1.


(** The UTxO set after the genesis block and a block 1 that holds
    [rewardOfOne]. *)
Definition respendingUnspent : list UnspentTxOut.t :=
  updateUnspentTxOuts [rewardOfOne] (unspentTxOuts initialState).


(** The transaction builder, as the specification words it. *)

Definition utxo_outpoint (uTxO : UnspentTxOut.t) : string * Z :=
  (UnspentTxOut.txOutId uTxO, UnspentTxOut.txOutIndex uTxO).

(** No two entries of the UTxO set have the same outpoint. *)
Fixpoint distinct_outpoints (unspentTxOuts : list UnspentTxOut.t) : bool :=
  match unspentTxOuts with
  | [] => true
  | uTxO :: rest =>
      negb (existsb (fun other =>
                       String.eqb (UnspentTxOut.txOutId other)
                                  (UnspentTxOut.txOutId uTxO)
                       && (UnspentTxOut.txOutIndex other
                           =? UnspentTxOut.txOutIndex uTxO))
                    rest)
      && distinct_outpoints rest
  end.








(** A UTxO list in which the outpoint of the genesis reward appears twice,
    first at another address. *)
Definition repeatedOutpoint : list UnspentTxOut.t :=
  [ UnspentTxOut.mk
      "e655f6a5f26dc9b4cac6e46f52336428287759cf81ef5ff10854f69d68f43fa3" 0
      otherAddress 10;
    UnspentTxOut.mk
      "e655f6a5f26dc9b4cac6e46f52336428287759cf81ef5ff10854f69d68f43fa3" 0
      genesisAddress 50 ].

(* ------------------------------------------------------------------ *)
(** ** The rest of [wallet.ts], [blockchain.ts] and [p2p.ts] *)

Definition findUnspentTxOuts (address : string)
    (unspentTxOuts : list UnspentTxOut.t) : list UnspentTxOut.t :=
  filter (fun uTxO => String.eqb (UnspentTxOut.address uTxO) address)
         unspentTxOuts.

Definition getBalance (address : string)
    (unspentTxOuts : list UnspentTxOut.t) : Z :=
  fold_left (fun sum uTxO => sum + UnspentTxOut.amount uTxO)
    (filter (fun uTxO => String.eqb (UnspentTxOut.address uTxO) address)
            (findUnspentTxOuts address unspentTxOuts))
    0.

(** The [while (true)] loop of [findBlock], run for at most [fuel]
    iterations from the counter [proof]; [None] when the iterations are
    used up before the loop is left. *)
Fixpoint findBlock_from (fuel : nat) (proof : Z) (index : Z)
    (previousHash : string) (timestamp : Z)
    (transactions : list Transaction.t) (difficulty : Z)
  : option (Outcome Block.t) :=
  match fuel with
  | O => None
  | S fuel' =>
      let hash := generateHash index previousHash timestamp transactions
                               difficulty proof in
      match checkHashDifficulty hash difficulty with
      | Throw message => Some (Throw message)
      | Return true =>
          Some (Return (Block.mk index timestamp transactions hash previousHash
                                 difficulty proof))
      | Return false =>
          findBlock_from fuel' (proof + 1) index previousHash timestamp
                         transactions difficulty
      end
  end.

Definition findBlock (fuel : nat) (index : Z) (previousHash : string)
    (timestamp : Z) (transactions : list Transaction.t) (difficulty : Z)
  : option (Outcome Block.t) :=
  findBlock_from fuel 0 index previousHash timestamp transactions difficulty.

(** What a peer message makes the node send. *)
Inductive Sent : Type :=
| SendLatest          (* [sendMessage(socket, responseLatestMsg())] *)
| SendChain           (* [sendMessage(socket, responseChainMsg())] *)
| SendTransactionPool (* [sendMessage(socket, responseTransactionPoolMsg())] *)
| BroadcastLatest     (* [broadcastMessage(responseLatestMsg())] *)
| BroadcastQueryAll   (* [broadcastMessage(queryAllMsg())] *)
| BroadcastTransactionPool. (* [broadcastTransactionPool()] *)

(** A parsed peer message; the data of a chain response is [None] when it
    does not parse. *)
Inductive Message : Type :=
| QUERY_LATEST
| QUERY_ALL
| RESPONSE_BLOCKCHAIN (data : option (list Block.t))
| QUERY_TRANSACTION_POOL
| RESPONSE_TRANSACTION_POOL (data : list Transaction.t).

Section Node.

Variable verify : string -> string -> string -> bool.
Variable sign : string -> string -> string.
Variable publicOf : string -> string.
Variable now : Z.

(** The content of the wallet file. *)
Variable walletKey : string.

Definition getPrivateFromWallet : string := walletKey.

Definition getPublicFromWallet : string := publicOf getPrivateFromWallet.

(** [JSON.parse(JSON.stringify(unspentTxOuts))]: a copy, equal by value. *)
Definition getUnspentTxOuts : M (list UnspentTxOut.t) := gets unspentTxOuts.


Definition getBlockchain : M (list Block.t) := gets blockchain.

Definition getMyUnspentTransactionOutputs : M (list UnspentTxOut.t) :=
  current <- getUnspentTxOuts ;;
  ret (findUnspentTxOuts getPublicFromWallet current).

Definition accountBalance : M Z :=
  current <- getUnspentTxOuts ;;
  ret (getBalance getPublicFromWallet current).

Definition handleReceivedTransaction (transaction : Transaction.t) : M unit :=
  current <- getUnspentTxOuts ;;
  addToTransactionPool verify transaction current.


(** [generateRawBlock]; [timestamp] is the clock when the block is
    stamped, [now] the clock when [addBlock] validates it.  The answer of
    [addBlock] is only logged. *)
Definition generateRawBlock (fuel : nat) (timestamp : Z)
    (transactions : list Transaction.t) (s : State)
  : option (Outcome Block.t * State) :=
  let chain := blockchain s in
  let lastBlock := at_index chain (Z.of_nat (List.length chain) - 1) in
  match getDifficulty chain with
  | Throw message => Some (Throw message, s)
  | Return difficulty =>
      match lastBlock with
      | None => Some (Throw "TypeError", s)
      | Some lastBlock =>
          match findBlock fuel (Block.index lastBlock + 1)
                          (Block.hash lastBlock) timestamp transactions
                          difficulty with
          | None => None
          | Some (Throw message) => Some (Throw message, s)
          | Some (Return newBlock) =>
              match addBlock verify now newBlock s with
              | (Throw message, s') => Some (Throw message, s')
              | (Return _, s') => Some (Return newBlock, s')
              end
          end
      end
  end.

Definition generateBlock (fuel : nat) (timestamp : Z) (s : State)
  : option (Outcome Block.t * State) :=
  match getLastBlock s with
  | (Throw message, s') => Some (Throw message, s')
  | (Return lastBlock, _) =>
      let transaction :=
        getCoinbaseTransaction getPublicFromWallet (Block.index lastBlock + 1) in
      let transactions := (transaction :: transactionPool s) in
      generateRawBlock fuel timestamp transactions s
  end.


(** [handleBlockchainResponse] on the parsed data.  The broadcast made
    inside [replaceChain] is left out, as it is there. *)
Definition handleBlockchainResponse (data : option (list Block.t))
  : M (list Sent) :=
  match data with
  | None => ret []
  | Some receivedBlocks =>
      match at_index receivedBlocks
              (Z.of_nat (List.length receivedBlocks) - 1) with
      | None => throw "TypeError"
      | Some latestBlockReceived =>
          if negb (validateBlockStructure latestBlockReceived) then ret []
          else
            latestBlockHeld <- getLastBlock ;;
            if Block.index latestBlockHeld <? Block.index latestBlockReceived
            then
              if String.eqb (Block.hash latestBlockHeld)
                            (Block.previousHash latestBlockReceived)
              then
                added <- addBlock verify now latestBlockReceived ;;
                if added then ret [BroadcastLatest] else ret []
              else if (Z.of_nat (List.length receivedBlocks) =? 1)
              then ret [BroadcastQueryAll]
              else replaceChain verify now receivedBlocks ;;; ret []
            else ret []
      end
  end.

(** The [for ... of] loop over the received transactions. *)
Fixpoint receiveTransactions (receivedTransactions : list Transaction.t)
  : M unit :=
  match receivedTransactions with
  | [] => ret tt
  | transaction :: rest =>
      handleReceivedTransaction transaction ;;; receiveTransactions rest
  end.

(** [handleMessage] on the parsed message: what is sent, after the
    [try]/[catch] blocks have swallowed what was thrown. *)
Definition handleMessage (message : Message) : State -> list Sent * State :=
  fun s =>
    match message with
    | QUERY_LATEST => ([SendLatest], s)
    | QUERY_ALL => ([SendChain], s)
    | RESPONSE_BLOCKCHAIN data =>
        match handleBlockchainResponse data s with
        | (Return sent, s') => (sent, s')
        | (Throw _, s') => ([], s')
        end
    | QUERY_TRANSACTION_POOL => ([SendTransactionPool], s)
    | RESPONSE_TRANSACTION_POOL receivedTransactions =>
        match receiveTransactions receivedTransactions s with
        | (Return _, s') => ([BroadcastTransactionPool], s')
        | (Throw _, s') => ([], s')
        end
    end.

End Node.

(* ------------------------------------------------------------------ *)
(** ** Invariants of the node state *)

(** [block] follows [previous]: the next index, the hash of [previous] as
    previous hash, and the hash its own contents derive. *)
Definition follows (previous block : Block.t) : Prop :=
  Block.index block = Block.index previous + 1
  /\ Block.previousHash block = Block.hash previous
  /\ generateHashForBlock block = Block.hash block.

(** Every block of the chain follows the one before it; [previous] is the
    block before the first one, if any. *)
Fixpoint linked_from (previous : option Block.t) (chain : list Block.t)
  : Prop :=
  match chain with
  | [] => True
  | block :: rest =>
      match previous with
      | Some previousBlock => follows previousBlock block
      | None => True
      end
      /\ linked_from (Some block) rest
  end.

(** The UTxO set that the transactions of the chain build, block by
    block, from the empty set. *)
Definition ledger_of (chain : list Block.t) : list UnspentTxOut.t :=
  fold_left (fun unspent block =>
               updateUnspentTxOuts (Block.transactions block) unspent)
            chain [].



(** The operations that assign the module variables: every other function
    changes the state through them only. *)
Inductive step (verify : string -> string -> string -> bool)
  : State -> State -> Prop :=
| step_addBlock : forall now newBlock s,
    step verify s (snd (addBlock verify now newBlock s))
| step_replaceChain : forall now newChain s,
    step verify s (snd (replaceChain verify now newChain s))
| step_receive : forall transaction s,
    step verify s (snd (handleReceivedTransaction verify transaction s)).

(** The states a node goes through after it has started. *)
Inductive reachable (verify : string -> string -> string -> bool)
  : State -> Prop :=
| reachable_start : reachable verify initialState
| reachable_step : forall s s',
    reachable verify s -> step verify s s' -> reachable verify s'.


(** The block that the search proposes at the counter [proof]. *)
Definition candidateBlock (index : Z) (previousHash : string) (timestamp : Z)
    (transactions : list Transaction.t) (difficulty proof : Z) : Block.t :=
  Block.mk index timestamp transactions
    (generateHash index previousHash timestamp transactions difficulty proof)
    previousHash difficulty proof.

(** Eleven blocks of difficulty 0 mined 30 s apart, and the state of a
    node that holds them. *)
Definition sluggishChain : list Block.t :=
  growChain [genesisBlock] genesisBlock
    (map (fun k => 1734667274522 + 30000 * k) [1; 2; 3; 4; 5; 6; 7; 8; 9; 10]).

Definition sluggishState : State :=
  mkState sluggishChain (ledger_of sluggishChain) [].

(** [uTxO] records the output at position [txOutIndex] of a transaction of
    the chain that carries the id its contents derive. *)
Definition output_of (chain : list Block.t) (uTxO : UnspentTxOut.t) : Prop :=
  exists (block : Block.t) (tx : Transaction.t) (txOut : TxOut.t),
    In block chain
    /\ In tx (Block.transactions block)
    /\ getTransactionId tx = Transaction.id tx
    /\ at_index (Transaction.txOuts tx) (UnspentTxOut.txOutIndex uTxO)
       = Some txOut
    /\ uTxO = UnspentTxOut.mk (Transaction.id tx)
                              (UnspentTxOut.txOutIndex uTxO)
                              (TxOut.address txOut) (TxOut.amount txOut).



(** The node after it was offered [unminedBlock] at the time of its
    stamp. *)
Definition afterUnminedBlock : State :=
  snd (addBlock demoVerify 1734667284522 unminedBlock initialState).

(** The state that offering the blocks in turn leads to. *)
Definition offerBlocks (now : Z) (blocks : list Block.t) (s : State) : State :=
  fold_left (fun held block => snd (addBlock demoVerify now block held))
            blocks s.

(** A transfer of the genesis reward to [otherAddress], a node that holds
    it in its pool, and a block 1 that carries it behind a reward. *)
Definition pooledTransfer : Transaction.t :=
  demoTransfer genesisKey
    [ ("e655f6a5f26dc9b4cac6e46f52336428287759cf81ef5ff10854f69d68f43fa3", 0) ]
    [ TxOut.mk otherAddress 50 ].

Definition pendingState : State :=
  mkState [genesisBlock] (unspentTxOuts initialState) [pooledTransfer].

Definition spendingBlock : Block.t :=
  blockOn genesisBlock 1734667284522 0 0
          [ getCoinbaseTransaction genesisAddress 1; pooledTransfer ].

Definition spentState : State :=
  mkState [genesisBlock; spendingBlock]
          (updateUnspentTxOuts (Block.transactions spendingBlock)
                               (unspentTxOuts initialState))
          [pooledTransfer].




(* ================================================================== *)
(** * Properties *)

(** ** The hash function on known digests *)

Example sha256_empty :
  sha256 "" = "e3b0c44298fc1c149afbf4c8996fb92427ae41e4649b934ca495991b7852b855".
Proof. vm_compute. reflexivity. Qed.

Example sha256_abc :
  sha256 "abc" = "ba7816bf8f01cfea414140de5dae2223b00361a396177a9cb410ff61f20015ad".
Proof. vm_compute. reflexivity. Qed.

(** The literals of the genesis block are what the program derives for
    them: its hash through [generateHashForBlock], the id of its
    transaction through [getTransactionId]. *)
Example genesis_hash_derived :
  generateHashForBlock genesisBlock = Block.hash genesisBlock.
Proof. vm_compute. reflexivity. Qed.

Example genesis_transaction_id_derived :
  map getTransactionId (Block.transactions genesisBlock)
  = map Transaction.id (Block.transactions genesisBlock).
Proof. vm_compute. reflexivity. Qed.

(** The UTxO set of a node that has just started is what
    [processTransactions] answers on the genesis transactions. *)
Example initialState_unspentTxOuts :
  forall verify,
    processTransactions verify (Block.transactions genesisBlock) [] 0
    = Return (unspentTxOuts initialState).
Proof. intros verify. vm_compute. reflexivity. Qed.

(** ** Strings *)

Lemma append_empty_r (s : string) : s ++ "" = s.
Proof. induction s as [|c s IH]; simpl; [reflexivity | now rewrite IH]. Qed.

Lemma append_assoc (a b c : string) : (a ++ b) ++ c = a ++ b ++ c.
Proof. induction a as [|x a IH]; simpl; [reflexivity | now rewrite IH]. Qed.

Lemma join_empty_cons (x : string) (xs : list string) :
  JS.join "" (x :: xs) = x ++ JS.join "" xs.
Proof.
  unfold JS.join. destruct xs as [|y ys]; simpl.
  - now rewrite append_empty_r.
  - reflexivity.
Qed.

Lemma join_inputs (txIns : list TxIn.t) :
  JS.join "" (map (fun txIn => TxIn.txOutId txIn ++ JS.str (TxIn.txOutIndex txIn))
                  txIns)
  = inputs_content txIns.
Proof.
  induction txIns as [|txIn rest IH]; [reflexivity|].
  cbn [map inputs_content]. rewrite join_empty_cons, IH.
  apply append_assoc.
Qed.

Lemma join_outputs (txOuts : list TxOut.t) :
  JS.join "" (map (fun txOut => TxOut.address txOut ++ JS.str (TxOut.amount txOut))
                  txOuts)
  = outputs_content txOuts.
Proof.
  induction txOuts as [|txOut rest IH]; [reflexivity|].
  cbn [map outputs_content]. rewrite join_empty_cons, IH.
  apply append_assoc.
Qed.

Lemma inputs_content_setSignatures (signatures : list string)
    (txIns : list TxIn.t) :
  inputs_content (setSignatures signatures txIns) = inputs_content txIns.
Proof.
  revert signatures.
  induction txIns as [|txIn rest IH]; intros [|sg sgs]; try reflexivity.
  cbn [setSignatures inputs_content TxIn.txOutId TxIn.txOutIndex].
  now rewrite IH.
Qed.

Lemma outpoint_eqb (a b : TxIn.t) :
  (TxIn.txOutIndex a =? TxIn.txOutIndex b)
  && String.eqb (TxIn.txOutId a) (TxIn.txOutId b) = true
  <-> outpoint a = outpoint b.
Proof.
  unfold outpoint. rewrite andb_true_iff, Z.eqb_eq, String.eqb_eq.
  split; [intros [-> ->]; reflexivity | intros H; inversion H; auto].
Qed.

(** ** C9: the transaction id *)

(** C9.  [getTransactionId] is the SHA-256 digest of the inputs' contents
    followed by the outputs' contents, each the in-order concatenation of
    the per-item strings; replacing the signatures of the inputs by any
    others leaves the id unchanged. *)
Theorem getTransactionId_ignores_signatures :
  forall (tx : Transaction.t) (signatures : list string),
    getTransactionId tx
    = sha256 (inputs_content (Transaction.txIns tx)
              ++ outputs_content (Transaction.txOuts tx))
    /\ getTransactionId (withSignatures signatures tx) = getTransactionId tx.
Proof.
  intros tx signatures.
  assert (E : forall t, getTransactionId t
                        = sha256 (inputs_content (Transaction.txIns t)
                                  ++ outputs_content (Transaction.txOuts t))).
  { intros t. unfold getTransactionId. now rewrite join_inputs, join_outputs. }
  split; [apply E|].
  rewrite (E (withSignatures signatures tx)), (E tx).
  cbn [withSignatures Transaction.txIns Transaction.txOuts].
  now rewrite inputs_content_setSignatures.
Qed.

Example getTransactionId_resigned :
  getTransactionId (withSignatures ["30"] strayCoinbase)
  = Transaction.id strayCoinbase.
Proof. vm_compute. reflexivity. Qed.

(** ** C10: duplicate detection by concatenated keys *)

(** C10.  There is a list of transactions whose inputs refer to pairwise
    different (txOutId, txOutIndex) pairs, whose first transaction is a
    valid coinbase, and which [validateBlockTransactions] nevertheless
    rejects, whatever the UTxO set and the signature check, because
    [hasDuplicates] finds a repeated key: ("a1", 2) and ("a", 12) both
    render as "a12". *)
Theorem validateBlockTransactions_rejects_distinct_outpoints :
  exists (transactions : list Transaction.t) (blockIndex : Z),
    NoDup (map outpoint (JS.flatMap Transaction.txIns transactions))
    /\ "a1" ++ JS.str 2 = "a" ++ JS.str 12
    /\ In (TxIn.mk "a1" 2 "") (JS.flatMap Transaction.txIns transactions)
    /\ In (TxIn.mk "a" 12 "") (JS.flatMap Transaction.txIns transactions)
    /\ validateCoinbaseTx (hd_error transactions) blockIndex = true
    /\ hasDuplicates (JS.flatMap Transaction.txIns transactions) = true
    /\ forall verify unspentTxOuts,
         validateBlockTransactions verify transactions unspentTxOuts blockIndex
         = false.
Proof.
  exists collidingTransactions, 1.
  split.
  { cbn. repeat constructor; cbn; intuition discriminate. }
  split; [reflexivity|].
  split; [cbn; auto|].
  split; [cbn; auto|].
  assert (C : validateCoinbaseTx (hd_error collidingTransactions) 1 = true)
    by (vm_compute; reflexivity).
  assert (D : hasDuplicates (JS.flatMap Transaction.txIns collidingTransactions)
              = true) by (vm_compute; reflexivity).
  split; [exact C|]. split; [exact D|].
  intros verify unspentTxOuts. unfold validateBlockTransactions.
  rewrite C, D. reflexivity.
Qed.

(** ** C5: what a valid coinbase is *)

Lemma validateCoinbaseTx_true (tx : Transaction.t) (blockIndex : Z) :
  validateCoinbaseTx (Some tx) blockIndex = true
  <-> coinbase_rules_checked tx blockIndex.
Proof.
  unfold validateCoinbaseTx, coinbase_rules_checked.
  destruct (String.eqb (getTransactionId tx) (Transaction.id tx)) eqn:I; cbn.
  - apply String.eqb_eq in I.
    destruct (Transaction.txIns tx) as [|txIn [|]]; cbn.
    + split; [discriminate | intros [[x [E _]] _]; discriminate].
    + destruct (TxIn.txOutIndex txIn =? blockIndex) eqn:N; cbn.
      * apply Z.eqb_eq in N.
        destruct (Transaction.txOuts tx) as [|txOut [|]]; cbn.
        -- split; [discriminate | intros [_ [[x [E _]] _]]; discriminate].
        -- destruct (TxOut.amount txOut =? COINBASE_AMOUNT) eqn:A; cbn.
           ++ apply Z.eqb_eq in A. split; [intros _|reflexivity].
              split; [exists txIn; auto|].
              split; [exists txOut; auto | auto].
           ++ apply Z.eqb_neq in A. split; [discriminate|].
              intros [_ [[x [E Hx]] _]]. inversion E; subst. contradiction.
        -- split; [discriminate | intros [_ [[x [E _]] _]]; discriminate].
      * apply Z.eqb_neq in N. split; [discriminate|].
        intros [[x [E Hx]] _]. inversion E; subst. contradiction.
    + split; [discriminate | intros [[x [E _]] _]; discriminate].
  - apply String.eqb_neq in I. split; [discriminate|].
    intros [_ [_ E]]. congruence.
Qed.

(** C5, as amended.  [validateCoinbaseTx] returns true exactly when the
    transaction is present, has exactly one input whose [txOutIndex] is
    the block index, exactly one output whose amount is 50, and an id equal
    to the derived one.  The [txOutId] and the [signature] of the input
    and the address of the output are not examined. *)
Theorem validateCoinbaseTx_checks :
  forall (transaction : option Transaction.t) (blockIndex : Z),
    validateCoinbaseTx transaction blockIndex = true
    <-> exists tx, transaction = Some tx
                   /\ coinbase_rules_checked tx blockIndex.
Proof.
  intros [tx|] blockIndex.
  - rewrite validateCoinbaseTx_true. split.
    + intros H. exists tx. auto.
    + intros [tx' [E H]]. inversion E. subst. exact H.
  - cbn. split; [discriminate | intros [tx [E _]]; discriminate].
Qed.

(** C5, as stated, fails: a transaction whose only input has
    [txOutId = "ab"] and [signature = "00"] is accepted as the coinbase of
    block 1. *)
Lemma validateCoinbaseTx_accepts_stray_input :
  validateCoinbaseTx (Some strayCoinbase) 1 = true
  /\ ~ coinbase_rules_specified strayCoinbase 1.
Proof.
  split; [vm_compute; reflexivity|].
  intros [[txIn [E [I _]]] _]. cbn in E. inversion E. subst txIn.
  cbn in I. discriminate.
Qed.

(** ** C7: admission to the pool *)

Lemma isValidTxForPool_disjoint (tx : Transaction.t)
    (pool : list Transaction.t) :
  isValidTxForPool tx pool = true <-> pool_disjoint tx pool.
Proof.
  unfold isValidTxForPool, pool_disjoint, getTxPoolIns, JS.flatMap.
  rewrite forallb_forall. split.
  - intros H pooled txPoolIn txIn Hp Hpi Hi E.
    specialize (H txIn Hi). apply negb_true_iff in H.
    assert (X : existsb
                  (fun txPoolIn0 =>
                     (TxIn.txOutIndex txIn =? TxIn.txOutIndex txPoolIn0)
                     && String.eqb (TxIn.txOutId txIn) (TxIn.txOutId txPoolIn0))
                  (flat_map Transaction.txIns pool) = true).
    { apply existsb_exists. exists txPoolIn. split.
      - apply in_flat_map. eauto.
      - apply outpoint_eqb. auto. }
    congruence.
  - intros H txIn Hi. apply negb_true_iff.
    destruct (existsb _ _) eqn:X; [exfalso | reflexivity].
    apply existsb_exists in X. destruct X as [txPoolIn [Hin E]].
    apply in_flat_map in Hin. destruct Hin as [pooled [Hp Hpi]].
    apply outpoint_eqb in E. exact (H pooled txPoolIn txIn Hp Hpi Hi (eq_sym E)).
Qed.

Section Pool.

Variable verify : string -> string -> string -> bool.


End Pool.

(** ** C4: the timestamp rule *)

Lemma validateTimestamp_true (now : Z) (newBlock previousBlock : Block.t) :
  validateTimestamp now newBlock previousBlock = true
  <-> Block.timestamp previousBlock - 60 < Block.timestamp newBlock
      /\ Block.timestamp newBlock - 60 < now.
Proof.
  unfold validateTimestamp. now rewrite andb_true_iff, !Z.ltb_lt.
Qed.

(** C4 on the code.  [validateTimestamp] allows 60 ms on both sides, not
    60,000: it accepts exactly when [previous - 60 < new] and
    [new - 60 < now], so a block stamped 59,999 ms before its predecessor,
    which the one-minute rule lets through, is rejected. *)
Theorem validateTimestamp_rejects_within_minute :
  (forall now newBlock previousBlock,
      validateTimestamp now newBlock previousBlock = true
      <-> Block.timestamp previousBlock - 60 < Block.timestamp newBlock
          /\ Block.timestamp newBlock - 60 < now)
  /\ Block.timestamp earlyBlock = Block.timestamp genesisBlock - 59999
  /\ timestamp_rule_one_minute 1734667274522 earlyBlock genesisBlock
  /\ validateTimestamp 1734667274522 earlyBlock genesisBlock = false.
Proof.
  split.
  - apply validateTimestamp_true.
  - split; [reflexivity|]. split.
    + unfold timestamp_rule_one_minute. cbn. lia.
    + reflexivity.
Qed.

(** ** C1: what [addBlock] validates *)

Lemma validateNewBlock_true (now : Z) (newBlock previousBlock : Block.t) :
  validateNewBlock now newBlock previousBlock = true
  <-> Block.index newBlock = Block.index previousBlock + 1
      /\ Block.previousHash newBlock = Block.hash previousBlock
      /\ validateTimestamp now newBlock previousBlock = true
      /\ generateHashForBlock newBlock = Block.hash newBlock.
Proof.
  unfold validateNewBlock, validateBlockStructure. cbn [negb].
  destruct (Block.index newBlock =? Block.index previousBlock + 1) eqn:I;
    [apply Z.eqb_eq in I | apply Z.eqb_neq in I]; cbn [negb];
    [| split; [discriminate | tauto]].
  destruct (String.eqb (Block.previousHash newBlock) (Block.hash previousBlock))
    eqn:P; [apply String.eqb_eq in P | apply String.eqb_neq in P]; cbn [negb];
    [| split; [discriminate | tauto]].
  destruct (validateTimestamp now newBlock previousBlock); cbn [negb];
    [| split; [discriminate | intros (_ & _ & X & _); discriminate]].
  destruct (String.eqb (generateHashForBlock newBlock) (Block.hash newBlock))
    eqn:G; [apply String.eqb_eq in G | apply String.eqb_neq in G]; cbn [negb];
    [tauto | split; [discriminate | tauto]].
Qed.

(** C1 on the code.  [validateNewBlock] tests the index, the link to the
    previous hash, the timestamp and that the hash is the derived one, and
    nothing else; the hash is never compared with the difficulty.  A node
    that has just started accepts [unminedBlock], which states difficulty
    20 while the binary expansion of its hash begins with a 1. *)
Theorem addBlock_accepts_without_proof_of_work :
  forall verify : string -> string -> string -> bool,
    (forall now newBlock previousBlock,
        validateNewBlock now newBlock previousBlock = true
        <-> Block.index newBlock = Block.index previousBlock + 1
            /\ Block.previousHash newBlock = Block.hash previousBlock
            /\ validateTimestamp now newBlock previousBlock = true
            /\ generateHashForBlock newBlock = Block.hash newBlock)
    /\ addBlock verify 1734667284522 unminedBlock initialState
       = (Return true,
          mkState [genesisBlock; unminedBlock]
                  (updateUnspentTxOuts (Block.transactions unminedBlock)
                                       (unspentTxOuts initialState))
                  [])
    /\ Block.difficulty unminedBlock = 20
    /\ Block.hash unminedBlock
       = "d91c7c7707d5bf8b727bb6faf39c455818f0082a11c77817470bae51c0b26c7d"
    /\ option_map (String.prefix "1") (hexToBinary (Block.hash unminedBlock))
       = Some true
    /\ checkHashDifficulty (Block.hash unminedBlock)
                           (Block.difficulty unminedBlock) = Return false.
Proof.
  intros verify. split; [apply validateNewBlock_true|].
  split; [vm_compute; reflexivity|].
  split; [reflexivity|].
  split; [vm_compute; reflexivity|].
  split; vm_compute; reflexivity.
Qed.

(** ** C6: difficulty retargeting *)

Lemma at_index_last {A : Type} (front : list A) (x : A) :
  at_index (front ++ [x])%list (Z.of_nat (List.length (front ++ [x])%list) - 1)
  = Some x.
Proof.
  unfold at_index. rewrite length_app. cbn [List.length].
  destruct (Z.ltb_spec (Z.of_nat (List.length front + 1) - 1) 0) as [H|H]; [lia|].
  replace (Z.to_nat (Z.of_nat (List.length front + 1) - 1))
    with (List.length front) by lia.
  rewrite nth_error_app2 by lia. now rewrite Nat.sub_diag.
Qed.

Lemma indexed_from_nth (chain : list Block.t) :
  forall (i : Z) (k : nat) (block : Block.t),
    indexed_from i chain = true ->
    nth_error chain k = Some block ->
    Block.index block = i + Z.of_nat k.
Proof.
  induction chain as [|b rest IH]; intros i k block H E.
  - destruct k; discriminate.
  - cbn [indexed_from] in H. apply andb_true_iff in H. destruct H as [Hb Hr].
    apply Z.eqb_eq in Hb. destruct k as [|k]; cbn in E.
    + inversion E. subst. lia.
    + rewrite (IH (i + 1) k block Hr E). lia.
Qed.

Lemma elapsed_below_half (a b : Z) :
  Qltb (inject_Z a / 1000 - inject_Z b / 1000)
       (inject_Z (BLOCK_GENERATION_INTERVAL * DIFFICULTY_ADJUSTMENT_INTERVAL) / 2)
  = (a - b <? 50000).
Proof.
  unfold Qltb, Qle_bool. cbn.
  destruct (Z.leb_spec 100000000 ((a * 1 * 1000 + - (b * 1) * 1000) * 2));
    destruct (Z.ltb_spec (a - b) 50000); cbn; auto; lia.
Qed.

Lemma elapsed_above_double (a b : Z) :
  Qltb (inject_Z (BLOCK_GENERATION_INTERVAL * DIFFICULTY_ADJUSTMENT_INTERVAL) * 2)
       (inject_Z a / 1000 - inject_Z b / 1000)
  = (200000 <? a - b).
Proof.
  unfold Qltb, Qle_bool. cbn.
  destruct (Z.leb_spec (a * 1 * 1000 + - (b * 1) * 1000) 200000000);
    destruct (Z.ltb_spec 200000 (a - b)); cbn; auto; lia.
Qed.

Lemma adjustDifficulty_retarget (chain : list Block.t)
    (adjustmentBlock lastBlock : Block.t) :
  at_index chain (Z.of_nat (List.length chain) - 10) = Some adjustmentBlock ->
  adjustDifficulty chain lastBlock = Return (retarget adjustmentBlock lastBlock).
Proof.
  intros E. unfold adjustDifficulty, retarget.
  change DIFFICULTY_ADJUSTMENT_INTERVAL with 10 at 1. rewrite E.
  rewrite elapsed_below_half, elapsed_above_double.
  destruct (_ <? 50000); [reflexivity|].
  destruct (200000 <? _); reflexivity.
Qed.

(** C6, as amended.  In a chain whose blocks sit at the positions of their
    indices and whose last block has index [N]: when [N] is a non-zero
    multiple of ten, [getDifficulty] retargets from the block at position
    [length - 10], which is the block of index [N - 9], by the rule of
    50 s and 200 s on the time between that block and the last one;
    otherwise it returns the difficulty of the last block. *)
Theorem getDifficulty_retargets_from_tenth_last :
  forall (front : list Block.t) (lastBlock : Block.t),
    indexed_from 0 (front ++ [lastBlock])%list = true ->
    let chain := (front ++ [lastBlock])%list in
    let N := Block.index lastBlock in
    if (N mod 10 =? 0) && negb (N =? 0)
    then exists adjustmentBlock,
           nth_error chain (Z.to_nat (N - 9)) = Some adjustmentBlock
           /\ Block.index adjustmentBlock = N - 9
           /\ getDifficulty chain = Return (retarget adjustmentBlock lastBlock)
    else getDifficulty chain = Return (Block.difficulty lastBlock).
Proof.
  intros front lastBlock W. cbv zeta.
  set (chain := (front ++ [lastBlock])%list) in *.
  set (N := Block.index lastBlock).
  assert (L : nth_error chain (List.length front) = Some lastBlock).
  { unfold chain. rewrite nth_error_app2 by lia. now rewrite Nat.sub_diag. }
  assert (HN : N = Z.of_nat (List.length front)).
  { unfold N. rewrite (indexed_from_nth chain 0 _ _ W L). lia. }
  assert (R : Z.rem N DIFFICULTY_ADJUSTMENT_INTERVAL = N mod 10).
  { apply Z.rem_mod_nonneg; unfold DIFFICULTY_ADJUSTMENT_INTERVAL; lia. }
  assert (G : getDifficulty chain
              = if (N mod 10 =? 0) && negb (N =? 0)
                then adjustDifficulty chain lastBlock
                else Return (Block.difficulty lastBlock)).
  { unfold getDifficulty, chain. rewrite at_index_last. fold N.
    now rewrite R. }
  rewrite G.
  destruct ((N mod 10 =? 0) && negb (N =? 0)) eqn:C; [|reflexivity].
  apply andb_true_iff in C. destruct C as [C1 C2].
  apply Z.eqb_eq in C1. apply negb_true_iff, Z.eqb_neq in C2.
  assert (T : 10 <= N).
  { destruct (Z_lt_le_dec N 10) as [X|X]; [|exact X].
    rewrite Z.mod_small in C1 by lia. lia. }
  assert (Len : List.length chain = S (List.length front)).
  { unfold chain. rewrite length_app. cbn. lia. }
  destruct (nth_error chain (Z.to_nat (N - 9))) as [adjustmentBlock|] eqn:E.
  - exists adjustmentBlock. split; [reflexivity|]. split.
    + rewrite (indexed_from_nth chain 0 _ _ W E). lia.
    + apply adjustDifficulty_retarget. unfold at_index.
      destruct (Z.ltb_spec (Z.of_nat (List.length chain) - 10) 0); [lia|].
      replace (Z.to_nat (Z.of_nat (List.length chain) - 10))
        with (Z.to_nat (N - 9)) by lia.
      exact E.
  - apply nth_error_None in E. lia.
Qed.

(** The theorem at the eleven-block chain, split into its first ten
    blocks and its last one. *)
Lemma getDifficulty_retargets_from_tenth_last_witness :
  indexed_from 0 (slowStartFront ++ [slowStartLast])%list = true
  /\ (let chain := (slowStartFront ++ [slowStartLast])%list in
      let N := Block.index slowStartLast in
      if (N mod 10 =? 0) && negb (N =? 0)
      then exists adjustmentBlock,
             nth_error chain (Z.to_nat (N - 9)) = Some adjustmentBlock
             /\ Block.index adjustmentBlock = N - 9
             /\ getDifficulty chain
                = Return (retarget adjustmentBlock slowStartLast)
      else getDifficulty chain = Return (Block.difficulty slowStartLast)).
Proof.
  assert (W : indexed_from 0 (slowStartFront ++ [slowStartLast])%list = true)
    by (vm_compute; reflexivity).
  split; [exact W|].
  exact (getDifficulty_retargets_from_tenth_last slowStartFront slowStartLast W).
Defined.

(** C6, as stated, fails at that chain: retargeting from the block of
    index 0, which is 1090 s older than the last block, prescribes one less
    than its difficulty; the program answers the difficulty of the block of
    index 1, which is 90 s older than the last block. *)
Lemma getDifficulty_differs_from_specified :
  indexed_from 0 slowStartChain = true
  /\ (slowStartFront ++ [slowStartLast])%list = slowStartChain
  /\ Block.index slowStartLast = 10
  /\ getDifficulty_specified slowStartChain = Some (-1)
  /\ getDifficulty slowStartChain = Return 0.
Proof. repeat split; vm_compute; reflexivity. Qed.

(** ** Equality tests of the entities *)

Lemma list_eqb_eq {A : Type} (eqb : A -> A -> bool) :
  (forall x y, eqb x y = true <-> x = y) ->
  forall xs ys, list_eqb eqb xs ys = true <-> xs = ys.
Proof.
  intros H. induction xs as [|x xs IH]; intros [|y ys]; cbn;
    try (split; [discriminate | intros E; inversion E]); try tauto.
  rewrite andb_true_iff, H, IH. split.
  - intros [-> ->]. reflexivity.
  - intros E. inversion E. auto.
Qed.

Lemma TxIn_eqb_eq (a b : TxIn.t) : TxIn.eqb a b = true <-> a = b.
Proof.
  destruct a, b. unfold TxIn.eqb. cbn.
  rewrite !andb_true_iff, !String.eqb_eq, Z.eqb_eq.
  split; [intros [[-> ->] ->]; reflexivity | intros E; inversion E; auto].
Qed.

Lemma TxOut_eqb_eq (a b : TxOut.t) : TxOut.eqb a b = true <-> a = b.
Proof.
  destruct a, b. unfold TxOut.eqb. cbn.
  rewrite andb_true_iff, String.eqb_eq, Z.eqb_eq.
  split; [intros [-> ->]; reflexivity | intros E; inversion E; auto].
Qed.


Lemma Transaction_eqb_eq (a b : Transaction.t) :
  Transaction.eqb a b = true <-> a = b.
Proof.
  destruct a, b. unfold Transaction.eqb. cbn.
  rewrite !andb_true_iff, String.eqb_eq,
          (list_eqb_eq TxIn.eqb TxIn_eqb_eq),
          (list_eqb_eq TxOut.eqb TxOut_eqb_eq).
  split; [intros [[-> ->] ->]; reflexivity | intros E; inversion E; auto].
Qed.

Lemma Block_eqb_eq (a b : Block.t) : Block.eqb a b = true <-> a = b.
Proof.
  destruct a, b. unfold Block.eqb. cbn.
  rewrite !andb_true_iff, !String.eqb_eq, !Z.eqb_eq,
          (list_eqb_eq Transaction.eqb Transaction_eqb_eq).
  split; [intros [[[[[[-> ->] ->] ->] ->] ->] ->]; reflexivity
         | intros E; inversion E; repeat split; auto].
Qed.

Lemma same_json_eq (a b : option Block.t) : same_json a b = true <-> a = b.
Proof.
  destruct a as [x|], b as [y|]; cbn;
    try (split; [discriminate | intros E; inversion E]); try tauto.
  rewrite Block_eqb_eq. split; [intros ->; reflexivity | intros E; inversion E; auto].
Qed.

(** Removing what a filter selected is filtering by the negated test. *)
Lemma filter_out_filtered {A : Type} (eqb : A -> A -> bool) (p : A -> bool) :
  (forall x y, eqb x y = true <-> x = y) ->
  forall xs,
    filter (fun x => negb (existsb (eqb x) (filter p xs))) xs
    = filter (fun x => negb (p x)) xs.
Proof.
  intros H xs. apply filter_ext_in. intros x Hx. f_equal.
  destruct (p x) eqn:P.
  - apply existsb_exists. exists x. split.
    + apply filter_In. auto.
    + now apply H.
  - destruct (existsb (eqb x) (filter p xs)) eqn:E; [|reflexivity].
    apply existsb_exists in E. destruct E as [y [Hy Exy]].
    apply H in Exy. subst y. apply filter_In in Hy. destruct Hy. congruence.
Qed.

(** ** C2: fork choice *)


Lemma Qltb_ge (x y : Q) : Qltb x y = false <-> (y <= x)%Q.
Proof.
  unfold Qltb. rewrite negb_false_iff. apply Qle_bool_iff.
Qed.

Section ForkChoice.

Variable verify : string -> string -> string -> bool.
Variable now : Z.


Local Arguments updateTransactionPool : simpl never.



End ForkChoice.


(** ** C3: the UTxO update of a block *)






Lemma filter_keeps_all {A : Type} (f : A -> bool) (xs : list A) :
  (forall x, In x xs -> f x = true) -> filter f xs = xs.
Proof.
  intros H. induction xs as [|x xs IH]; [reflexivity|].
  cbn. rewrite (H x (or_introl eq_refl)). f_equal.
  apply IH. intros y Hy. apply H. now right.
Qed.




Section Update.

Variable verify : string -> string -> string -> bool.
Variable now : Z.


End Update.



(** ** C8: the transaction builder *)






Lemma inputs_content_outpoints (a b : list TxIn.t) :
  map outpoint a = map outpoint b -> inputs_content a = inputs_content b.
Proof.
  revert b. induction a as [|x a IH]; intros [|y b] E; try discriminate;
    [reflexivity|].
  cbn in E. inversion E as [[E1 E2 E3]]. cbn. rewrite E1, E2.
  now rewrite (IH b E3).
Qed.

Lemma getTransactionId_outpoints (a b : Transaction.t) :
  map outpoint (Transaction.txIns a) = map outpoint (Transaction.txIns b) ->
  Transaction.txOuts a = Transaction.txOuts b ->
  getTransactionId a = getTransactionId b.
Proof.
  intros Hi Ho. unfold getTransactionId.
  rewrite !join_inputs, !join_outputs, Ho.
  now rewrite (inputs_content_outpoints _ _ Hi).
Qed.

Section Wallet.

Variable sign : string -> string -> string.
Variable publicOf : string -> string.



End Wallet.


Example createTransaction_pays_with_change :
  option_map Transaction.txOuts
    (match createTransaction demoSign demoPublicOf otherAddress 30 genesisKey
                             [] respendingUnspent with
     | Return tx => Some tx
     | Throw _ => None
     end)
  = Some [ TxOut.mk otherAddress 30; TxOut.mk genesisAddress 20 ].
Proof. vm_compute. reflexivity. Qed.

(** Outside the theorem: when an outpoint is listed twice, the input is
    signed against the first entry, and the builder throws although the
    sender's own entry covers the amount. *)
Example createTransaction_repeated_outpoint :
  distinct_outpoints repeatedOutpoint = false
  /\ createTransaction demoSign demoPublicOf otherAddress 30 genesisKey
                       [] repeatedOutpoint
     = Throw "Trying to sign an input with an invalid private key.".
Proof. split; vm_compute; reflexivity. Qed.

(* ================================================================== *)
(** * Further properties of the program *)

(** ** Duplicate inputs *)



Section Blocks.

Variable verify : string -> string -> string -> bool.


End Blocks.

(** ** The reward transaction *)

Lemma validateCoinbaseTx_getCoinbaseTransaction :
  forall (address : string) (blockIndex checkedIndex : Z),
    validateCoinbaseTx (Some (getCoinbaseTransaction address blockIndex))
                       checkedIndex
    = (blockIndex =? checkedIndex).
Proof.
  intros address blockIndex checkedIndex.
  unfold validateCoinbaseTx, getCoinbaseTransaction.
  cbn [Transaction.id Transaction.txIns Transaction.txOuts
       TxIn.txOutIndex TxOut.amount].
  rewrite (getTransactionId_outpoints
             (Transaction.mk
                (getTransactionId
                   (Transaction.mk "" [TxIn.mk "" blockIndex ""]
                                   [TxOut.mk address COINBASE_AMOUNT]))
                [TxIn.mk "" blockIndex ""] [TxOut.mk address COINBASE_AMOUNT])
             (Transaction.mk "" [TxIn.mk "" blockIndex ""]
                             [TxOut.mk address COINBASE_AMOUNT])
             eq_refl eq_refl).
  rewrite String.eqb_refl, Z.eqb_refl. cbn [negb].
  destruct (blockIndex =? checkedIndex); reflexivity.
Qed.

(** X2.  The transaction that [getCoinbaseTransaction] builds for an
    address and a block index is accepted by [validateCoinbaseTx] for that
    index and for no other. *)
Theorem getCoinbaseTransaction_validates :
  forall (address : string) (blockIndex checkedIndex : Z),
    validateCoinbaseTx (Some (getCoinbaseTransaction address blockIndex))
                       checkedIndex = true
    <-> blockIndex = checkedIndex.
Proof.
  intros address blockIndex checkedIndex.
  rewrite validateCoinbaseTx_getCoinbaseTransaction. apply Z.eqb_eq.
Qed.

(** ** What the state-changing operations do *)

Lemma at_index_last_inv {A : Type} (xs : list A) (x : A) :
  at_index xs (Z.of_nat (List.length xs) - 1) = Some x ->
  exists front, xs = (front ++ [x])%list.
Proof.
  intros E. destruct (exists_last (l := xs)) as [front [y Hy]].
  - intros ->. cbn in E. discriminate.
  - subst xs. rewrite at_index_last in E. inversion E. subst. now exists front.
Qed.

Lemma set_transactionPool_same (s : State) :
  set_transactionPool (transactionPool s) s = s.
Proof. destruct s. reflexivity. Qed.

Lemma existsb_negb_forallb {A : Type} (f : A -> bool) (xs : list A) :
  negb (existsb (fun x => negb (f x)) xs) = forallb f xs.
Proof.
  induction xs as [|x xs IH]; [reflexivity|].
  cbn. rewrite negb_orb, negb_involutive, IH. reflexivity.
Qed.

Lemma filter_none_kept {A : Type} (f : A -> bool) (xs : list A) :
  filter f xs = [] -> filter (fun x => negb (f x)) xs = xs.
Proof.
  intros E. apply filter_keeps_all. intros x Hx.
  destruct (f x) eqn:F; [|reflexivity].
  assert (X : In x (filter f xs)) by (apply filter_In; auto).
  rewrite E in X. destruct X.
Qed.

(** The pool after [updateTransactionPool]: the transactions all of whose
    inputs are in the UTxO set, in their order. *)
Lemma updateTransactionPool_result (live : list UnspentTxOut.t) (s : State) :
  updateTransactionPool live s
  = (Return tt,
     set_transactionPool
       (filter (fun tx => forallb (fun txIn => hasTxIn txIn live)
                                  (Transaction.txIns tx))
               (transactionPool s))
       s).
Proof.
  unfold updateTransactionPool, bind, gets, modify, ret.
  cbn -[filter Z.ltb].
  set (stale := fun tx : Transaction.t =>
                  existsb (fun txIn => negb (hasTxIn txIn live))
                          (Transaction.txIns tx)).
  assert (K : filter (fun tx => negb (stale tx)) (transactionPool s)
              = filter (fun tx => forallb (fun txIn => hasTxIn txIn live)
                                          (Transaction.txIns tx))
                       (transactionPool s)).
  { apply filter_ext. intros tx. apply existsb_negb_forallb. }
  destruct (0 <? Z.of_nat (List.length (filter stale (transactionPool s))))
    eqn:L.
  - rewrite (filter_out_filtered Transaction.eqb stale Transaction_eqb_eq), K.
    reflexivity.
  - assert (E : filter stale (transactionPool s) = []).
    { destruct (filter stale (transactionPool s)); [reflexivity|].
      cbn in L. discriminate. }
    rewrite <- K, (filter_none_kept _ _ E), set_transactionPool_same.
    reflexivity.
Qed.

Section Operations.

Variable verify : string -> string -> string -> bool.
Variable now : Z.

Lemma addBlock_result (newBlock : Block.t) (s : State) :
  addBlock verify now newBlock s
  = match at_index (blockchain s) (Z.of_nat (List.length (blockchain s)) - 1) with
    | None => (Throw "TypeError", s)
    | Some previousBlock =>
        if validateNewBlock now newBlock previousBlock
        then if validateBlockTransactions verify (Block.transactions newBlock)
                  (unspentTxOuts s) (Block.index newBlock)
             then (Return true,
                   mkState (blockchain s ++ [newBlock])%list
                           (updateUnspentTxOuts (Block.transactions newBlock)
                                                (unspentTxOuts s))
                           (transactionPool s))
             else (Throw "Invalid block transactions.", s)
        else (Return false, s)
    end.
Proof.
  unfold addBlock, getLastBlock, bind, gets, lift, throw, ret, modify.
  cbn -[validateNewBlock processTransactions at_index].
  destruct (at_index (blockchain s) (Z.of_nat (List.length (blockchain s)) - 1))
    as [previousBlock|]; cbn -[validateNewBlock processTransactions];
    [|reflexivity].
  destruct (validateNewBlock now newBlock previousBlock);
    cbn -[processTransactions]; [|reflexivity].
  unfold processTransactions.
  destruct (validateBlockTransactions verify (Block.transactions newBlock)
              (unspentTxOuts s) (Block.index newBlock)); reflexivity.
Qed.

Lemma replaceChain_result (newChain : list Block.t) (s : State) :
  replaceChain verify now newChain s
  = if negb (same_json (hd_error newChain) (hd_error (blockchain s)))
    then (Return false, s)
    else match validateChain_loop verify now None newChain [] with
         | Throw message => (Throw message, s)
         | Return None => (Return false, s)
         | Return (Some replayed) =>
             if Qltb (getAccumulatedDifficulty newChain)
                     (getAccumulatedDifficulty (blockchain s))
             then (Return false, s)
             else if Z.of_nat (List.length newChain)
                     <=? Z.of_nat (List.length (blockchain s))
             then (Return false, s)
             else (Return true,
                   mkState newChain replayed
                     (filter (fun tx => forallb (fun txIn => hasTxIn txIn replayed)
                                                (Transaction.txIns tx))
                             (transactionPool s)))
         end.
Proof.
  unfold replaceChain, validateChain, bind, gets, lift, ret, modify.
  cbn -[same_json validateChain_loop updateTransactionPool Qltb
        getAccumulatedDifficulty Z.leb].
  destruct (same_json (hd_error newChain) (hd_error (blockchain s)));
    cbn -[validateChain_loop updateTransactionPool Qltb
          getAccumulatedDifficulty Z.leb]; [|reflexivity].
  destruct (validateChain_loop verify now None newChain [])
    as [[replayed|]|message];
    cbn -[updateTransactionPool Qltb getAccumulatedDifficulty Z.leb];
    try reflexivity.
  destruct (Qltb _ _); cbn -[updateTransactionPool Z.leb]; [reflexivity|].
  destruct (_ <=? _); cbn -[updateTransactionPool]; [reflexivity|].
  rewrite updateTransactionPool_result. reflexivity.
Qed.

Lemma handleReceivedTransaction_result (transaction : Transaction.t)
    (s : State) :
  handleReceivedTransaction verify transaction s
  = if validateTransaction verify transaction (unspentTxOuts s)
       && isValidTxForPool transaction (transactionPool s)
    then (Return tt,
          set_transactionPool (transactionPool s ++ [transaction])%list s)
    else (Throw "Trying to add invalid tx to pool", s).
Proof.
  unfold handleReceivedTransaction, getUnspentTxOuts, addToTransactionPool,
    bind, gets, throw, modify.
  cbn -[validateTransaction isValidTxForPool].
  destruct (validateTransaction verify transaction (unspentTxOuts s));
    cbn -[isValidTxForPool]; [|reflexivity].
  destruct (isValidTxForPool transaction (transactionPool s)); reflexivity.
Qed.


End Operations.

(** ** Invariants of the reachable states *)

Lemma linked_from_snoc (front : list Block.t) :
  forall (previous : option Block.t) (lastBlock newBlock : Block.t),
    linked_from previous (front ++ [lastBlock])%list ->
    follows lastBlock newBlock ->
    linked_from previous ((front ++ [lastBlock]) ++ [newBlock])%list.
Proof.
  induction front as [|block front IH]; intros previous lastBlock newBlock L F.
  - cbn in *. tauto.
  - cbn [app linked_from] in *. destruct L as [L1 L2].
    split; [exact L1|]. now apply IH.
Qed.

Lemma linked_from_indexed (rest : list Block.t) :
  forall previousBlock,
    linked_from (Some previousBlock) rest ->
    indexed_from (Block.index previousBlock + 1) rest = true.
Proof.
  induction rest as [|block rest IH]; intros previousBlock L; [reflexivity|].
  cbn [linked_from indexed_from] in *. destruct L as [[I _] L].
  rewrite I, Z.eqb_refl. cbn [andb]. rewrite <- I. now apply IH.
Qed.




Section Invariants.

Variable verify : string -> string -> string -> bool.

Lemma validateChain_loop_linked (now : Z) (rest : list Block.t) :
  forall previous unspent replayed,
    validateChain_loop verify now previous rest unspent = Return (Some replayed) ->
    linked_from previous rest
    /\ replayed
       = fold_left (fun u block =>
                      updateUnspentTxOuts (Block.transactions block) u)
                   rest unspent.
Proof.
  induction rest as [|block rest IH]; intros previous unspent replayed E.
  - cbn in E. inversion E. split; [exact I | reflexivity].
  - cbn [validateChain_loop] in E.
    destruct (match previous with
              | Some previousBlock => negb (validateNewBlock now block previousBlock)
              | None => false
              end) eqn:V; [discriminate|].
    unfold processTransactions in E.
    destruct (validateBlockTransactions verify (Block.transactions block)
                unspent (Block.index block)); [|discriminate].
    cbn [negb] in E. destruct (IH _ _ _ E) as [L R].
    cbn [linked_from fold_left]. split; [|exact R]. split; [|exact L].
    destruct previous as [previousBlock|]; [|exact I].
    apply negb_false_iff, validateNewBlock_true in V. unfold follows. tauto.
Qed.

(** The four ways in which a step leaves the state. *)
Lemma step_cases (s s' : State) :
  step verify s s' ->
  s' = s
  \/ (exists now newBlock front previousBlock,
        blockchain s = (front ++ [previousBlock])%list
        /\ validateNewBlock now newBlock previousBlock = true
        /\ validateBlockTransactions verify (Block.transactions newBlock)
             (unspentTxOuts s) (Block.index newBlock) = true
        /\ s' = mkState (blockchain s ++ [newBlock])%list
                        (updateUnspentTxOuts (Block.transactions newBlock)
                                             (unspentTxOuts s))
                        (transactionPool s))
  \/ (exists now newChain replayed,
        hd_error newChain = hd_error (blockchain s)
        /\ validateChain_loop verify now None newChain [] = Return (Some replayed)
        /\ (getAccumulatedDifficulty (blockchain s)
            <= getAccumulatedDifficulty newChain)%Q
        /\ (List.length (blockchain s) < List.length newChain)%nat
        /\ s' = mkState newChain replayed
                  (filter (fun tx => forallb (fun txIn => hasTxIn txIn replayed)
                                             (Transaction.txIns tx))
                          (transactionPool s)))
  \/ (exists transaction,
        validateTransaction verify transaction (unspentTxOuts s) = true
        /\ pool_disjoint transaction (transactionPool s)
        /\ s' = set_transactionPool (transactionPool s ++ [transaction])%list s).
Proof.
  intros [now newBlock s0 | now newChain s0 | transaction s0].
  - rewrite addBlock_result.
    destruct (at_index (blockchain s0)
                (Z.of_nat (List.length (blockchain s0)) - 1))
      as [previousBlock|] eqn:L; [|left; reflexivity].
    destruct (validateNewBlock now newBlock previousBlock) eqn:V;
      [|left; reflexivity].
    destruct (validateBlockTransactions verify _ _ _) eqn:B;
      [|left; reflexivity].
    right. left. destruct (at_index_last_inv _ _ L) as [front Hf].
    exists now, newBlock, front, previousBlock. auto.
  - rewrite replaceChain_result.
    destruct (same_json (hd_error newChain) (hd_error (blockchain s0))) eqn:J;
      [|left; reflexivity].
    cbn [negb]. apply same_json_eq in J.
    destruct (validateChain_loop verify now None newChain [])
      as [[replayed|]|message] eqn:V; try (left; reflexivity).
    destruct (Qltb _ _) eqn:W; [left; reflexivity|]. apply Qltb_ge in W.
    destruct (_ <=? _) eqn:N; [left; reflexivity|]. apply Z.leb_gt in N.
    right. right. left. exists now, newChain, replayed.
    repeat split; auto. lia.
  - rewrite handleReceivedTransaction_result.
    destruct (validateTransaction verify transaction (unspentTxOuts s0)) eqn:V;
      [|left; reflexivity].
    destruct (isValidTxForPool transaction (transactionPool s0)) eqn:P;
      [|left; reflexivity].
    right. right. right. exists transaction.
    apply isValidTxForPool_disjoint in P. auto.
Qed.

(** The chain of a reachable state starts at the genesis block and is
    linked. *)
Lemma reachable_linked (s : State) :
  reachable verify s ->
  hd_error (blockchain s) = Some genesisBlock
  /\ linked_from None (blockchain s).
Proof.
  intros R. induction R as [|s s' R [H L] S].
  - cbn. auto.
  - destruct (step_cases s s' S)
      as [-> | [(now & newBlock & front & previousBlock & C & V & B & ->)
             | [(now & newChain & replayed & Hd & V & _ & _ & ->)
               | (transaction & _ & _ & ->)]]]; cbn [blockchain]; auto.
    + split.
      * rewrite C in *. destruct front; exact H.
      * rewrite C in *. apply linked_from_snoc; [exact L|].
        apply validateNewBlock_true in V. unfold follows. tauto.
    + split; [congruence|].
      exact (proj1 (validateChain_loop_linked _ _ _ _ _ V)).
Qed.

Lemma reachable_indexed (s : State) :
  reachable verify s -> indexed_from 0 (blockchain s) = true.
Proof.
  intros R. destruct (reachable_linked s R) as [H L].
  destruct (blockchain s) as [|first rest]; [discriminate|].
  cbn in H. inversion H. subst first. cbn [linked_from] in L.
  cbn [indexed_from]. change (Block.index genesisBlock =? 0) with true.
  cbn [andb].
  exact (linked_from_indexed rest genesisBlock (proj2 L)).
Qed.

(** X4.  In every state the node reaches, the chain begins with the
    genesis block, every later block follows its predecessor (next index,
    hash of the predecessor, derived hash), and every block sits at the
    position of its index. *)
Theorem reachable_chain_linked :
  forall s : State,
    reachable verify s ->
    hd_error (blockchain s) = Some genesisBlock
    /\ linked_from None (blockchain s)
    /\ indexed_from 0 (blockchain s) = true.
Proof.
  intros s R. destruct (reachable_linked s R) as [H L].
  split; [exact H|]. split; [exact L|]. now apply reachable_indexed.
Qed.

(** X5.  In every state the node reaches, the UTxO set is the one that the
    transactions of the chain build, block by block, from the empty
    set. *)
Theorem reachable_ledger :
  forall s : State,
    reachable verify s -> unspentTxOuts s = ledger_of (blockchain s).
Proof.
  intros s R. induction R as [|s s' R IH S]; [reflexivity|].
  destruct (step_cases s s' S)
    as [-> | [(now & newBlock & front & previousBlock & C & V & B & ->)
           | [(now & newChain & replayed & Hd & V & _ & _ & ->)
             | (transaction & _ & _ & ->)]]];
    cbn [blockchain unspentTxOuts set_transactionPool]; auto.
  - unfold ledger_of. rewrite fold_left_app. cbn [fold_left].
    fold (ledger_of (blockchain s)). now rewrite <- IH.
  - exact (proj2 (validateChain_loop_linked _ _ _ _ _ V)).
Qed.



End Invariants.

(** ** The entry points stay within the reachable states *)

Section EntryPoints.

Variable verify : string -> string -> string -> bool.
Variable sign : string -> string -> string.
Variable publicOf : string -> string.
Variable now : Z.
Variable walletKey : string.





End EntryPoints.

(** ** A built transfer is admitted *)


Lemma find_none_all {A : Type} (f : A -> bool) (xs : list A) :
  (forall x, In x xs -> f x = false) -> find f xs = None.
Proof.
  induction xs as [|x xs IH]; intros H; [reflexivity|].
  cbn. rewrite (H x (or_introl eq_refl)). apply IH.
  intros y Hy. apply H. now right.
Qed.

Section Transfer.

Variable verify : string -> string -> string -> bool.
Variable sign : string -> string -> string.
Variable publicOf : string -> string.


(** Verification succeeds on what the same key has signed. *)
Hypothesis verify_sign :
  forall privateKey message,
    verify (publicOf privateKey) message (sign privateKey message) = true.

Variable walletKey : string.


End Transfer.

(** ** Mining *)

Lemma findBlock_from_least (fuel : nat) :
  forall (start index : Z) (previousHash : string) (timestamp : Z)
         (transactions : list Transaction.t) (difficulty : Z) (found : Block.t),
    findBlock_from fuel start index previousHash timestamp transactions
                   difficulty = Some (Return found)
    <-> exists tries : nat,
          (tries < fuel)%nat
          /\ found = candidateBlock index previousHash timestamp transactions
                                    difficulty (start + Z.of_nat tries)
          /\ checkHashDifficulty (Block.hash found) difficulty = Return true
          /\ forall earlier : nat,
               (earlier < tries)%nat ->
               checkHashDifficulty
                 (generateHash index previousHash timestamp transactions
                               difficulty (start + Z.of_nat earlier))
                 difficulty = Return false.
Proof.
  induction fuel as [|fuel IH];
    intros start index previousHash timestamp transactions difficulty found.
  - cbn. split; [discriminate | intros (tries & H & _); lia].
  - cbn [findBlock_from].
    destruct (checkHashDifficulty
                (generateHash index previousHash timestamp transactions
                              difficulty start) difficulty)
      as [[|]|message] eqn:C.
    + split.
      * intros E. inversion E. subst found. exists O.
        rewrite Z.add_0_r. split; [lia|]. split; [reflexivity|].
        split; [exact C | intros earlier H; lia].
      * intros (tries & _ & -> & _ & Hleast).
        destruct tries as [|tries].
        -- rewrite Z.add_0_r. reflexivity.
        -- specialize (Hleast O ltac:(lia)). rewrite Z.add_0_r in Hleast.
           congruence.
    + rewrite IH. split.
      * intros (tries & Hf & -> & Hc & Hleast). exists (S tries).
        replace (start + Z.of_nat (S tries)) with (start + 1 + Z.of_nat tries)
          by lia.
        split; [lia|]. split; [reflexivity|]. split; [exact Hc|].
        intros [|earlier] He.
        -- now rewrite Z.add_0_r.
        -- replace (start + Z.of_nat (S earlier))
             with (start + 1 + Z.of_nat earlier) by lia.
           apply Hleast. lia.
      * intros (tries & Hf & -> & Hc & Hleast).
        destruct tries as [|tries].
        -- rewrite Z.add_0_r in Hc. cbn [candidateBlock Block.hash] in Hc.
           congruence.
        -- exists tries.
           replace (start + 1 + Z.of_nat tries) with (start + Z.of_nat (S tries))
             by lia.
           split; [lia|]. split; [reflexivity|]. split; [exact Hc|].
           intros earlier He.
           replace (start + 1 + Z.of_nat earlier)
             with (start + Z.of_nat (S earlier)) by lia.
           apply Hleast. lia.
    + split; [discriminate|].
      intros (tries & _ & -> & Hc & Hleast).
      destruct tries as [|tries].
      * rewrite Z.add_0_r in Hc. cbn [candidateBlock Block.hash] in Hc.
        congruence.
      * specialize (Hleast O ltac:(lia)). rewrite Z.add_0_r in Hleast.
        congruence.
Qed.

(** X10.  [findBlock] returns a block exactly when some proof counted from
    0 meets the difficulty within the iterations allowed; the block it
    returns carries the least such proof and the hash derived with it, so
    enough iterations always give that block. *)
Theorem findBlock_least_proof :
  forall (fuel : nat) (index : Z) (previousHash : string) (timestamp : Z)
         (transactions : list Transaction.t) (difficulty : Z) (found : Block.t),
    findBlock fuel index previousHash timestamp transactions difficulty
    = Some (Return found)
    <-> exists tries : nat,
          (tries < fuel)%nat
          /\ found = candidateBlock index previousHash timestamp transactions
                                    difficulty (Z.of_nat tries)
          /\ checkHashDifficulty (Block.hash found) difficulty = Return true
          /\ forall earlier : nat,
               (earlier < tries)%nat ->
               checkHashDifficulty
                 (generateHash index previousHash timestamp transactions
                               difficulty (Z.of_nat earlier))
                 difficulty = Return false.
Proof.
  intros. unfold findBlock. rewrite findBlock_from_least. reflexivity.
Qed.

Example findBlock_difficulty_four :
  findBlock 6 1 (Block.hash genesisBlock) 1734667284522
            [getCoinbaseTransaction genesisAddress 1] 4
  = Some (Return (candidateBlock 1 (Block.hash genesisBlock) 1734667284522
                                 [getCoinbaseTransaction genesisAddress 1] 4 5)).
Proof. vm_compute. reflexivity. Qed.

Section Mining.

Variable verify : string -> string -> string -> bool.
Variable now : Z.

(** X11.  The difficulty that [getDifficulty] prescribes can be negative,
    and then no block can be mined: [checkHashDifficulty] throws on the
    first proof tried, and [generateRawBlock] throws with the state left
    as it was. *)
Theorem generateRawBlock_negative_difficulty :
  forall (fuel : nat) (timestamp : Z) (transactions : list Transaction.t)
         (s : State) (difficulty : Z),
    getDifficulty (blockchain s) = Return difficulty ->
    difficulty < 0 ->
    (forall hash, checkHashDifficulty hash difficulty = Throw "RangeError")
    /\ generateRawBlock verify now (S fuel) timestamp transactions s
       = Some (Throw "RangeError", s).
Proof.
  intros fuel timestamp transactions s difficulty G N.
  assert (C : forall hash, checkHashDifficulty hash difficulty = Throw "RangeError").
  { intros hash. unfold checkHashDifficulty.
    destruct (Z.ltb_spec difficulty 0); [reflexivity | lia]. }
  split; [exact C|].
  unfold generateRawBlock. rewrite G.
  destruct (at_index (blockchain s) (Z.of_nat (List.length (blockchain s)) - 1))
    as [lastBlock|] eqn:L.
  - unfold findBlock. cbn [findBlock_from]. now rewrite C.
  - unfold getDifficulty in G. rewrite L in G. discriminate.
Qed.

Lemma generateRawBlock_result (fuel : nat) (timestamp : Z)
    (transactions : list Transaction.t) (s : State) (front : list Block.t)
    (lastBlock : Block.t) (difficulty : Z) (mined : Block.t) :
  blockchain s = (front ++ [lastBlock])%list ->
  getDifficulty (blockchain s) = Return difficulty ->
  findBlock fuel (Block.index lastBlock + 1) (Block.hash lastBlock)
            timestamp transactions difficulty = Some (Return mined) ->
  generateRawBlock verify now fuel timestamp transactions s
  = Some (if (Block.timestamp lastBlock - 60 <? timestamp)
             && (timestamp - 60 <? now)
          then if validateBlockTransactions verify transactions
                    (unspentTxOuts s) (Block.index lastBlock + 1)
               then (Return mined,
                     mkState (blockchain s ++ [mined])%list
                             (updateUnspentTxOuts transactions (unspentTxOuts s))
                             (transactionPool s))
               else (Throw "Invalid block transactions.", s)
          else (Return mined, s)).
Proof.
  intros C G F.
  assert (L : at_index (blockchain s)
                (Z.of_nat (List.length (blockchain s)) - 1) = Some lastBlock)
    by (rewrite C; apply at_index_last).
  pose proof F as F'. unfold findBlock in F'.
  apply findBlock_from_least in F'.
  destruct F' as (tries & _ & Hm & _).
  assert (V : validateNewBlock now mined lastBlock
              = (Block.timestamp lastBlock - 60 <? timestamp)
                && (timestamp - 60 <? now)).
  { subst mined. unfold validateNewBlock, validateBlockStructure,
      validateTimestamp, generateHashForBlock, candidateBlock.
    cbn [Block.index Block.previousHash Block.timestamp Block.hash
         Block.transactions Block.difficulty Block.proof negb].
    rewrite Z.eqb_refl, !String.eqb_refl. cbn [negb].
    destruct ((Block.timestamp lastBlock - 60 <? timestamp)
              && (timestamp - 60 <? now)); reflexivity. }
  assert (T : Block.transactions mined = transactions
              /\ Block.index mined = Block.index lastBlock + 1)
    by (subst mined; split; reflexivity).
  destruct T as [Tt Ti].
  unfold generateRawBlock. rewrite G, L, F, addBlock_result, L, V, Tt, Ti.
  destruct ((Block.timestamp lastBlock - 60 <? timestamp)
            && (timestamp - 60 <? now)); [|reflexivity].
  destruct (validateBlockTransactions verify transactions (unspentTxOuts s)
              (Block.index lastBlock + 1)); reflexivity.
Qed.


End Mining.

(** ** Difficulty 0 and the digests of SHA-256 *)

Lemma hex_value_hex_digit (d : Z) :
  0 <= d < 16 -> hex_value (Sha256.hex_digit d) = Some d.
Proof.
  intros H.
  assert (C : d = 0 \/ d = 1 \/ d = 2 \/ d = 3 \/ d = 4 \/ d = 5 \/ d = 6
              \/ d = 7 \/ d = 8 \/ d = 9 \/ d = 10 \/ d = 11 \/ d = 12
              \/ d = 13 \/ d = 14 \/ d = 15) by lia.
  repeat (destruct C as [->|C]; [reflexivity|]). subst d. reflexivity.
Qed.

Lemma hexToBinary_hex_word (n : nat) (x : Z) (rest bits : string) :
  hexToBinary rest = Some bits ->
  exists more, hexToBinary (Sha256.hex_word n x ++ rest) = Some more
               /\ (n <> O -> more <> "").
Proof.
  intros R. induction n as [|n IH].
  - exists bits. split; [exact R | intros H; contradiction].
  - destruct IH as [more [E _]].
    cbn [Sha256.hex_word append hexToBinary].
    rewrite hex_value_hex_digit by (apply Z.mod_pos_bound; lia).
    rewrite E. eexists. split; [reflexivity|].
    intros _. cbn. discriminate.
Qed.

Lemma hexToBinary_digest (h : Sha256.regs) :
  exists bits, hexToBinary (Sha256.digest h) = Some bits /\ bits <> "".
Proof.
  unfold Sha256.digest.
  destruct (hexToBinary_hex_word 8 (Sha256.rh h) "" "" eq_refl) as [b7 [E7 _]].
  rewrite append_empty_r in E7.
  destruct (hexToBinary_hex_word 8 (Sha256.rg h) _ _ E7) as [b6 [E6 _]].
  destruct (hexToBinary_hex_word 8 (Sha256.rf h) _ _ E6) as [b5 [E5 _]].
  destruct (hexToBinary_hex_word 8 (Sha256.re h) _ _ E5) as [b4 [E4 _]].
  destruct (hexToBinary_hex_word 8 (Sha256.rd h) _ _ E4) as [b3 [E3 _]].
  destruct (hexToBinary_hex_word 8 (Sha256.rc h) _ _ E3) as [b2 [E2 _]].
  destruct (hexToBinary_hex_word 8 (Sha256.rb h) _ _ E2) as [b1 [E1 _]].
  destruct (hexToBinary_hex_word 8 (Sha256.ra h) _ _ E1) as [b0 [E0 N]].
  exists b0. split; [exact E0 | apply N; discriminate].
Qed.

Lemma checkHashDifficulty_zero (content : string) :
  checkHashDifficulty (sha256 content) 0 = Return true.
Proof.
  unfold checkHashDifficulty, sha256, Sha256.sha256.
  destruct (hexToBinary_digest
              (Sha256.absorb
                 (Nat.div (List.length
                             (Sha256.words
                                (Sha256.pad (Sha256.bytes_of_string content))))
                          16)
                 (Sha256.words (Sha256.pad (Sha256.bytes_of_string content)))
                 Sha256.initial))
    as [bits [E N]].
  cbv zeta. rewrite E. cbn [Z.ltb Z.compare Z.to_nat zeros].
  destruct bits; [contradiction | reflexivity].
Qed.

Section Reward.

Variable verify : string -> string -> string -> bool.
Variable publicOf : string -> string.
Variable now : Z.
Variable walletKey : string.

(** X13.  With an empty pool and a prescribed difficulty of 0,
    [generateBlock] needs one iteration: the first proof is accepted, the
    reward transaction is valid for the next index, and, when the stamp is
    within 60 ms of the last block and of the clock, the block with proof 0
    is appended and returned. *)
Theorem generateBlock_difficulty_zero :
  forall (fuel : nat) (timestamp : Z) (s : State)
         (front : list Block.t) (lastBlock : Block.t),
    blockchain s = (front ++ [lastBlock])%list ->
    transactionPool s = [] ->
    getDifficulty (blockchain s) = Return 0 ->
    Block.timestamp lastBlock - 60 < timestamp ->
    timestamp - 60 < now ->
    let reward :=
      getCoinbaseTransaction (publicOf walletKey) (Block.index lastBlock + 1) in
    let mined :=
      candidateBlock (Block.index lastBlock + 1) (Block.hash lastBlock)
                     timestamp [reward] 0 0 in
    generateBlock verify publicOf now walletKey (S fuel) timestamp s
    = Some (Return mined,
            mkState (blockchain s ++ [mined])%list
                    (updateUnspentTxOuts [reward] (unspentTxOuts s))
                    []).
Proof.
  intros fuel timestamp s front lastBlock C P G T1 T2 reward mined.
  assert (L : at_index (blockchain s)
                (Z.of_nat (List.length (blockchain s)) - 1) = Some lastBlock)
    by (rewrite C; apply at_index_last).
  assert (F : findBlock (S fuel) (Block.index lastBlock + 1)
                        (Block.hash lastBlock) timestamp [reward] 0
              = Some (Return mined)).
  { unfold findBlock. cbn [findBlock_from]. unfold generateHash.
    rewrite checkHashDifficulty_zero. reflexivity. }
  assert (V : validateBlockTransactions verify [reward] (unspentTxOuts s)
                (Block.index lastBlock + 1) = true).
  { unfold validateBlockTransactions. cbn [hd_error tl forallb].
    unfold reward. rewrite validateCoinbaseTx_getCoinbaseTransaction, Z.eqb_refl.
    cbn [negb]. reflexivity. }
  assert (T : (Block.timestamp lastBlock - 60 <? timestamp)
              && (timestamp - 60 <? now) = true).
  { apply andb_true_iff. split; apply Z.ltb_lt; lia. }
  pose proof (generateRawBlock_result verify now (S fuel) timestamp [reward] s
                front lastBlock 0 mined C G F) as E.
  rewrite T, V in E.
  unfold generateBlock, getLastBlock, bind, gets, ret, getPublicFromWallet,
    getPrivateFromWallet.
  cbn -[at_index generateRawBlock getCoinbaseTransaction].
  rewrite L. cbn -[generateRawBlock getCoinbaseTransaction].
  rewrite P. fold reward. rewrite E, P. reflexivity.
Qed.

End Reward.

(** ** Transactions received from a peer *)

Lemma set_transactionPool_twice (a b : list Transaction.t) (s : State) :
  set_transactionPool b (set_transactionPool a s) = set_transactionPool b s.
Proof. reflexivity. Qed.

Section Gossip.

Variable verify : string -> string -> string -> bool.
Variable now : Z.

Lemma receiveTransactions_result (received : list Transaction.t) :
  forall s : State,
    exists admitted remaining : list Transaction.t,
      received = (admitted ++ remaining)%list
      /\ snd (receiveTransactions verify received s)
         = set_transactionPool (transactionPool s ++ admitted)%list s
      /\ (forall before tx after,
             admitted = (before ++ tx :: after)%list ->
             validateTransaction verify tx (unspentTxOuts s) = true
             /\ isValidTxForPool tx (transactionPool s ++ before)%list = true)
      /\ match remaining with
         | [] => fst (receiveTransactions verify received s) = Return tt
         | rejected :: _ =>
             validateTransaction verify rejected (unspentTxOuts s)
             && isValidTxForPool rejected (transactionPool s ++ admitted)%list
             = false
             /\ fst (receiveTransactions verify received s)
                = Throw "Trying to add invalid tx to pool"
         end.
Proof.
  induction received as [|transaction rest IH]; intros s.
  - exists [], []. cbn [receiveTransactions ret fst snd app].
    rewrite app_nil_r, set_transactionPool_same.
    repeat split; try reflexivity; destruct before; discriminate.
  - cbn [receiveTransactions]. unfold bind.
    rewrite handleReceivedTransaction_result.
    destruct (validateTransaction verify transaction (unspentTxOuts s)
              && isValidTxForPool transaction (transactionPool s)) eqn:A.
    + set (s1 := set_transactionPool (transactionPool s ++ [transaction])%list s).
      destruct (IH s1) as (admitted & remaining & E & St & Adm & Rem).
      exists (transaction :: admitted), remaining.
      split; [cbn; now rewrite E|].
      split.
      { rewrite St. unfold s1. cbn [transactionPool set_transactionPool].
        rewrite <- app_assoc. reflexivity. }
      split.
      { intros before tx after Eb. destruct before as [|first before].
        - cbn in Eb. inversion Eb. subst. rewrite app_nil_r.
          now apply andb_true_iff in A.
        - cbn in Eb. inversion Eb. subst first.
          destruct (Adm before tx after H1) as [V P].
          split; [exact V|].
          unfold s1 in P. cbn [transactionPool set_transactionPool] in P.
          now rewrite <- app_assoc in P. }
      destruct remaining as [|rejected remaining'].
      * exact Rem.
      * unfold s1 in Rem. cbn [transactionPool set_transactionPool unspentTxOuts] in Rem.
        rewrite <- app_assoc in Rem. exact Rem.
    + exists [], (transaction :: rest). cbn [fst snd app].
      rewrite app_nil_r, set_transactionPool_same.
      split; [reflexivity|]. split; [reflexivity|].
      split; [intros before tx after Eb; destruct before; discriminate|].
      split; [exact A | reflexivity].
Qed.

(** X14.  Of the transactions a peer sends, the node admits a prefix: each
    one in turn passes [validateTransaction] and collides with nothing
    pooled before it.  The first that fails ends the loop, the ones behind
    it are not looked at, those before it stay in the pool, and nothing is
    broadcast; the pool is broadcast when all were admitted. *)
Theorem handleMessage_transactions_prefix :
  forall (received : list Transaction.t) (s : State),
    exists admitted remaining : list Transaction.t,
      received = (admitted ++ remaining)%list
      /\ (forall before tx after,
             admitted = (before ++ tx :: after)%list ->
             validateTransaction verify tx (unspentTxOuts s) = true
             /\ isValidTxForPool tx (transactionPool s ++ before)%list = true)
      /\ (forall rejected rest,
             remaining = rejected :: rest ->
             validateTransaction verify rejected (unspentTxOuts s)
             && isValidTxForPool rejected (transactionPool s ++ admitted)%list
             = false)
      /\ handleMessage verify now (RESPONSE_TRANSACTION_POOL received) s
         = (match remaining with
            | [] => [BroadcastTransactionPool]
            | _ :: _ => []
            end,
            set_transactionPool (transactionPool s ++ admitted)%list s).
Proof.
  intros received s.
  destruct (receiveTransactions_result received s)
    as (admitted & remaining & E & St & Adm & Rem).
  exists admitted, remaining.
  split; [exact E|]. split; [exact Adm|].
  cbn [handleMessage].
  destruct (receiveTransactions verify received s) as [outcome s'].
  cbn [fst snd] in *. subst s'.
  destruct remaining as [|rejected rest].
  - split; [intros ? ? X; discriminate|]. now rewrite Rem.
  - destruct Rem as [F ->].
    split; [intros ? ? X; inversion X; subst; exact F | reflexivity].
Qed.

End Gossip.

(** ** Transactions without inputs *)

Section Unbacked.

Variable verify : string -> string -> string -> bool.



End Unbacked.

(** ** The next difficulty in reachable states *)

Lemma indexed_from_last (front : list Block.t) (lastBlock : Block.t) :
  indexed_from 0 (front ++ [lastBlock])%list = true ->
  Block.index lastBlock = Z.of_nat (List.length front).
Proof.
  intros H.
  apply (indexed_from_nth _ 0 (List.length front) lastBlock H).
  rewrite nth_error_app2 by lia. now rewrite Nat.sub_diag.
Qed.

Section Retarget.

Variable verify : string -> string -> string -> bool.

(** X16.  In every state the node reaches, the chain is not empty and its
    last block has the index of its position, so [getLastBlock] and
    [getDifficulty] return: when the difficulty is retargeted, the chain
    holds the block that [adjustDifficulty] reads. *)
Theorem reachable_getDifficulty_returns :
  forall s : State,
    reachable verify s ->
    exists (front : list Block.t) (lastBlock : Block.t) (difficulty : Z),
      blockchain s = (front ++ [lastBlock])%list
      /\ Block.index lastBlock = Z.of_nat (List.length front)
      /\ getLastBlock s = (Return lastBlock, s)
      /\ getDifficulty (blockchain s) = Return difficulty.
Proof.
  intros s R.
  destruct (reachable_linked verify s R) as [H _].
  pose proof (reachable_indexed verify s R) as I.
  destruct (exists_last (l := blockchain s)) as [front [lastBlock C]].
  { intros E. rewrite E in H. discriminate. }
  rewrite C in I. pose proof (indexed_from_last _ _ I) as Ix.
  assert (L : at_index (blockchain s)
                (Z.of_nat (List.length (blockchain s)) - 1) = Some lastBlock)
    by (rewrite C; apply at_index_last).
  assert (G : exists difficulty, getDifficulty (blockchain s) = Return difficulty).
  { unfold getDifficulty. rewrite L.
    destruct ((Z.rem (Block.index lastBlock) DIFFICULTY_ADJUSTMENT_INTERVAL =? 0)
              && negb (Block.index lastBlock =? 0)) eqn:T;
      [|eexists; reflexivity].
    apply andb_true_iff in T. destruct T as [T0 T1].
    apply Z.eqb_eq in T0. apply negb_true_iff, Z.eqb_neq in T1.
    unfold DIFFICULTY_ADJUSTMENT_INTERVAL in *.
    assert (Big : 10 <= Block.index lastBlock).
    { rewrite Ix in *.
      pose proof (Z.rem_bound_pos (Z.of_nat (List.length front)) 10) as B.
      pose proof (Z.quot_rem' (Z.of_nat (List.length front)) 10) as Q.
      pose proof (Z.quot_pos (Z.of_nat (List.length front)) 10) as P.
      lia. }
    unfold adjustDifficulty, DIFFICULTY_ADJUSTMENT_INTERVAL, at_index.
    rewrite C, length_app. cbn [List.length].
    destruct (Z.ltb_spec (Z.of_nat (List.length front + 1) - 10) 0) as [N|N];
      [lia|].
    destruct (nth_error (front ++ [lastBlock])%list
                (Z.to_nat (Z.of_nat (List.length front + 1) - 10)))
      as [adjustmentBlock|] eqn:E.
    - destruct (Qltb _ _); [eexists; reflexivity|].
      destruct (Qltb _ _); eexists; reflexivity.
    - apply nth_error_None in E. rewrite length_app in E. cbn in E. lia. }
  destruct G as [difficulty G].
  exists front, lastBlock, difficulty.
  split; [exact C|]. split; [exact Ix|]. split; [|exact G].
  unfold getLastBlock, bind, gets, ret. cbn -[at_index]. now rewrite L.
Qed.

End Retarget.

(** ** Pooled transactions that a block has spent *)

Lemma existsb_outpoint (consumed : list (string * Z)) (id : string) (index : Z) :
  In (id, index) consumed ->
  existsb (fun txOut : string * Z =>
             String.eqb (fst txOut) id && (snd txOut =? index)) consumed = true.
Proof.
  intros H. apply existsb_exists. exists (id, index).
  split; [exact H|]. cbn. now rewrite String.eqb_refl, Z.eqb_refl.
Qed.

Lemma mapi_from_ids {A B : Type} (f : A -> Z -> B) (xs : list A) :
  forall (i : Z) (y : B),
    In y (JS.mapi_from i f xs) -> exists x k, In x xs /\ y = f x k.
Proof.
  induction xs as [|x xs IH]; intros i y H; [destruct H|].
  cbn in H. destruct H as [<-|H].
  - exists x, i. split; [now left | reflexivity].
  - destruct (IH _ _ H) as (x' & k & Hin & E). exists x', k.
    split; [now right | exact E].
Qed.

(** An output of the updated UTxO set was in the set and is not consumed,
    or is an output of one of the transactions. *)
Lemma updateUnspentTxOuts_in (transactions : list Transaction.t)
    (unspent : list UnspentTxOut.t) (uTxO : UnspentTxOut.t) :
  In uTxO (updateUnspentTxOuts transactions unspent) ->
  (In uTxO unspent
   /\ forall tx txIn, In tx transactions -> In txIn (Transaction.txIns tx) ->
                      outpoint txIn <> utxo_outpoint uTxO)
  \/ exists tx, In tx transactions
                /\ UnspentTxOut.txOutId uTxO = Transaction.id tx.
Proof.
  unfold updateUnspentTxOuts. intros H. apply in_app_iff in H.
  destruct H as [H|H].
  - left. apply filter_In in H. destruct H as [Hin Hc]. split; [exact Hin|].
    intros tx txIn Ht Hi E. apply negb_true_iff in Hc.
    rewrite existsb_outpoint in Hc; [discriminate|].
    unfold JS.flatMap. apply in_flat_map. exists tx. split; [exact Ht|].
    apply in_map_iff. exists txIn. split; [|exact Hi].
    rewrite E. reflexivity.
  - right. unfold JS.flatMap in H. apply in_flat_map in H.
    destruct H as [tx [Ht H]]. exists tx. split; [exact Ht|].
    unfold JS.mapi in H. apply mapi_from_ids in H.
    destruct H as (txOut & k & _ & ->). reflexivity.
Qed.

Section StalePool.

Variable verify : string -> string -> string -> bool.
Variable publicOf : string -> string.
Variable walletKey : string.

(** X17.  [addBlock] leaves the pool as it is.  When the accepted block
    consumes an outpoint that an input of a pooled transaction names, and no
    transaction of the block has that id, the transaction stays in the
    pool, no longer passes [validateTransaction], and every later
    [generateBlock], which mines the whole pool, leaves the state as it
    is. *)
Theorem addBlock_leaves_spent_in_pool :
  forall (now : Z) (newBlock : Block.t) (s s' : State)
         (pooled spender : Transaction.t) (txIn spending : TxIn.t),
    addBlock verify now newBlock s = (Return true, s') ->
    In pooled (transactionPool s) ->
    In txIn (Transaction.txIns pooled) ->
    In spender (Block.transactions newBlock) ->
    In spending (Transaction.txIns spender) ->
    outpoint spending = outpoint txIn ->
    (forall tx, In tx (Block.transactions newBlock) ->
                Transaction.id tx <> TxIn.txOutId txIn) ->
    In pooled (transactionPool s')
    /\ validateTransaction verify pooled (unspentTxOuts s') = false
    /\ forall later fuel timestamp outcome s'',
         generateBlock verify publicOf later walletKey fuel timestamp s'
         = Some (outcome, s'') ->
         s'' = s'.
Proof.
  intros now newBlock s s' pooled spender txIn spending A Hp Hi Hs Hsi Eo Fresh.
  rewrite addBlock_result in A.
  destruct (at_index (blockchain s) (Z.of_nat (List.length (blockchain s)) - 1))
    as [previousBlock|]; [|discriminate].
  destruct (validateNewBlock now newBlock previousBlock); [|discriminate].
  destruct (validateBlockTransactions verify (Block.transactions newBlock)
              (unspentTxOuts s) (Block.index newBlock)); [|discriminate].
  inversion A. subst s'. clear A. cbn [transactionPool unspentTxOuts].
  set (live := updateUnspentTxOuts (Block.transactions newBlock) (unspentTxOuts s)).
  assert (Gone : find (fun uTxO =>
                         String.eqb (UnspentTxOut.txOutId uTxO) (TxIn.txOutId txIn)
                         && (UnspentTxOut.txOutIndex uTxO =? TxIn.txOutIndex txIn))
                      live = None).
  { apply find_none_all. intros uTxO Hin.
    destruct (String.eqb (UnspentTxOut.txOutId uTxO) (TxIn.txOutId txIn)) eqn:E1;
      [|reflexivity].
    destruct (UnspentTxOut.txOutIndex uTxO =? TxIn.txOutIndex txIn) eqn:E2;
      [|reflexivity].
    exfalso. apply String.eqb_eq in E1. apply Z.eqb_eq in E2.
    destruct (updateUnspentTxOuts_in _ _ _ Hin) as [[_ Hc] | [tx [Ht Hid]]].
    - apply (Hc spender spending Hs Hsi). rewrite Eo.
      unfold outpoint, utxo_outpoint. now rewrite E1, E2.
    - apply (Fresh tx Ht). now rewrite <- Hid. }
  assert (Invalid : validateTransaction verify pooled live = false).
  { unfold validateTransaction.
    destruct (validateTransactionStructure pooled); [|reflexivity].
    destruct (String.eqb (getTransactionId pooled) (Transaction.id pooled));
      [|reflexivity].
    cbn [negb].
    assert (F : forallb (fun txIn0 => validateTxIn verify txIn0 pooled live)
                        (Transaction.txIns pooled) = false).
    { destruct (forallb _ _) eqn:F; [|reflexivity].
      rewrite forallb_forall in F. specialize (F txIn Hi).
      unfold validateTxIn in F. rewrite Gone in F. discriminate. }
    rewrite F. reflexivity. }
  split; [exact Hp|]. split; [exact Invalid|].
  intros later fuel timestamp outcome s'' G.
  set (s1 := mkState (blockchain s ++ [newBlock])%list live (transactionPool s)) in *.
  unfold generateBlock in G.
  destruct (getLastBlock s1) as [[lastBlock|message] s0] eqn:L.
  - unfold generateRawBlock in G.
    destruct (getDifficulty (blockchain s1)); [|inversion G; reflexivity].
    destruct (at_index (blockchain s1) (Z.of_nat (List.length (blockchain s1)) - 1))
      as [held|] eqn:Lh; [|inversion G; reflexivity].
    destruct (findBlock fuel (Block.index held + 1) (Block.hash held) timestamp _ _)
      as [[mined|message]|] eqn:F; [|inversion G; reflexivity|discriminate].
    pose proof F as Fm. unfold findBlock in Fm. apply findBlock_from_least in Fm.
    destruct Fm as (tries & _ & Hm & _).
    rewrite addBlock_result, Lh in G.
    assert (T : Block.transactions mined
                = getCoinbaseTransaction (getPublicFromWallet publicOf walletKey)
                    (Block.index lastBlock + 1) :: transactionPool s1)
      by (subst mined; reflexivity).
    assert (B : validateBlockTransactions verify (Block.transactions mined)
                  (unspentTxOuts s1) (Block.index mined) = false).
    { rewrite T. unfold validateBlockTransactions. cbn [hd_error tl].
      destruct (validateCoinbaseTx _ _); [|reflexivity].
      destruct (hasDuplicates _); [reflexivity|]. cbn [negb].
      destruct (forallb _ _) eqn:X; [|reflexivity].
      rewrite forallb_forall in X. specialize (X pooled Hp).
      unfold s1 in X. cbn [unspentTxOuts] in X. congruence. }
    rewrite B in G.
    destruct (validateNewBlock later mined held); inversion G; reflexivity.
  - unfold getLastBlock, bind, gets, throw, ret in L. cbn -[at_index] in L.
    destruct (at_index _ _); inversion L. subst. inversion G. reflexivity.
Qed.

End StalePool.

(** ** Where the unspent outputs come from *)

Lemma mapi_from_nth {A B : Type} (f : A -> Z -> B) (xs : list A) :
  forall (i : Z) (y : B),
    In y (JS.mapi_from i f xs) ->
    exists x k, i <= k /\ nth_error xs (Z.to_nat (k - i)) = Some x /\ y = f x k.
Proof.
  induction xs as [|x xs IH]; intros i y H; [destruct H|].
  cbn in H. destruct H as [<-|H].
  - exists x, i. split; [lia|]. rewrite Z.sub_diag. split; reflexivity.
  - destruct (IH _ _ H) as (x' & k & Hk & E & ->). exists x', k.
    split; [lia|]. split; [|reflexivity].
    replace (Z.to_nat (k - i)) with (S (Z.to_nat (k - (i + 1)))) by lia.
    exact E.
Qed.

Lemma string_length_append (a b : string) :
  String.length (a ++ b) = (String.length a + String.length b)%nat.
Proof. induction a as [|c a IH]; cbn; [reflexivity | now rewrite IH]. Qed.

Lemma hex_word_length (n : nat) (x : Z) :
  String.length (Sha256.hex_word n x) = n.
Proof. induction n as [|n IH]; cbn; [reflexivity | now rewrite IH]. Qed.

Lemma sha256_length (content : string) : String.length (sha256 content) = 64%nat.
Proof.
  unfold sha256, Sha256.sha256, Sha256.digest. cbv zeta.
  rewrite !string_length_append, !hex_word_length. reflexivity.
Qed.

Section Provenance.

Variable verify : string -> string -> string -> bool.

Lemma validateBlockTransactions_ids (transactions : list Transaction.t)
    (unspent : list UnspentTxOut.t) (blockIndex : Z) :
  validateBlockTransactions verify transactions unspent blockIndex = true ->
  forall tx, In tx transactions -> getTransactionId tx = Transaction.id tx.
Proof.
  unfold validateBlockTransactions. intros V tx Hin.
  destruct transactions as [|reward rest]; [destruct Hin|].
  cbn [hd_error tl] in V.
  destruct (validateCoinbaseTx (Some reward) blockIndex) eqn:Cb; [|discriminate].
  destruct (hasDuplicates _); [discriminate|]. cbn [negb] in V.
  destruct Hin as [<-|Hin].
  - unfold validateCoinbaseTx in Cb.
    destruct (String.eqb (getTransactionId reward) (Transaction.id reward)) eqn:E;
      [now apply String.eqb_eq | discriminate].
  - rewrite forallb_forall in V. specialize (V tx Hin).
    unfold validateTransaction in V.
    destruct (validateTransactionStructure tx); [|discriminate].
    destruct (String.eqb (getTransactionId tx) (Transaction.id tx)) eqn:E;
      [now apply String.eqb_eq | discriminate].
Qed.

Lemma output_of_grows (chain more : list Block.t) (uTxO : UnspentTxOut.t) :
  output_of chain uTxO -> output_of (chain ++ more)%list uTxO.
Proof.
  intros (block & tx & txOut & Hb & H). exists block, tx, txOut.
  split; [apply in_app_iff; now left | exact H].
Qed.

Lemma updateUnspentTxOuts_outputs (chain : list Block.t) (block : Block.t)
    (unspent : list UnspentTxOut.t) :
  (forall tx, In tx (Block.transactions block) ->
              getTransactionId tx = Transaction.id tx) ->
  (forall uTxO, In uTxO unspent -> output_of chain uTxO) ->
  forall uTxO,
    In uTxO (updateUnspentTxOuts (Block.transactions block) unspent) ->
    output_of (chain ++ [block])%list uTxO.
Proof.
  intros Ids Old uTxO H. unfold updateUnspentTxOuts in H.
  apply in_app_iff in H. destruct H as [H|H].
  - apply filter_In in H. apply output_of_grows, Old, H.
  - unfold JS.flatMap in H. apply in_flat_map in H.
    destruct H as [tx [Ht H]]. unfold JS.mapi in H.
    apply mapi_from_nth in H. destruct H as (txOut & k & Hk & E & ->).
    exists block, tx, txOut. cbn [UnspentTxOut.txOutIndex].
    split; [apply in_app_iff; right; now left|].
    split; [exact Ht|]. split; [now apply Ids|]. split; [|reflexivity].
    unfold at_index. destruct (Z.ltb_spec k 0); [lia|].
    now rewrite Z.sub_0_r in E.
Qed.

Lemma validateChain_loop_outputs (now : Z) (rest : list Block.t) :
  forall previous done unspent replayed,
    validateChain_loop verify now previous rest unspent = Return (Some replayed) ->
    (forall uTxO, In uTxO unspent -> output_of done uTxO) ->
    forall uTxO, In uTxO replayed -> output_of (done ++ rest)%list uTxO.
Proof.
  induction rest as [|block rest IH]; intros previous done unspent replayed E Old.
  - cbn in E. inversion E. subst. rewrite app_nil_r. exact Old.
  - cbn [validateChain_loop] in E.
    destruct (match previous with
              | Some previousBlock => negb (validateNewBlock now block previousBlock)
              | None => false
              end); [discriminate|].
    unfold processTransactions in E.
    destruct (validateBlockTransactions verify (Block.transactions block)
                unspent (Block.index block)) eqn:V; [|discriminate].
    cbn [negb] in E.
    replace (done ++ block :: rest)%list with ((done ++ [block]) ++ rest)%list
      by (rewrite <- app_assoc; reflexivity).
    apply (IH _ _ _ _ E).
    apply updateUnspentTxOuts_outputs; [|exact Old].
    exact (validateBlockTransactions_ids _ _ _ V).
Qed.

Lemma reachable_outputs (s : State) :
  reachable verify s ->
  forall uTxO, In uTxO (unspentTxOuts s) -> output_of (blockchain s) uTxO.
Proof.
  intros R. induction R as [|s s' R IH S].
  - apply (updateUnspentTxOuts_outputs [] genesisBlock []).
    + intros tx [<-|[]]. vm_compute. reflexivity.
    + intros uTxO [].
  - destruct (step_cases verify s s' S)
      as [-> | [(now & newBlock & front & previousBlock & C & V & B & ->)
             | [(now & newChain & replayed & Hd & V & _ & _ & ->)
               | (transaction & _ & _ & ->)]]];
      cbn [blockchain unspentTxOuts set_transactionPool]; auto.
    + apply updateUnspentTxOuts_outputs; [|exact IH].
      exact (validateBlockTransactions_ids _ _ _ B).
    + apply (validateChain_loop_outputs now newChain None [] [] replayed V).
      intros uTxO [].
Qed.

(** X18.  In every state the node reaches, each entry of the UTxO set
    records an output of a transaction of the chain: the transaction
    carries the id its contents derive, which is 64 characters long, and
    the entry has that id, the position of the output, its address and its
    amount. *)
Theorem reachable_utxo_outputs :
  forall (s : State) (uTxO : UnspentTxOut.t),
    reachable verify s ->
    In uTxO (unspentTxOuts s) ->
    output_of (blockchain s) uTxO
    /\ String.length (UnspentTxOut.txOutId uTxO) = 64%nat.
Proof.
  intros s uTxO R Hin. pose proof (reachable_outputs s R uTxO Hin) as O.
  split; [exact O|].
  destruct O as (block & tx & txOut & _ & _ & Id & _ & E).
  rewrite E. cbn [UnspentTxOut.txOutId]. rewrite <- Id.
  apply sha256_length.
Qed.

End Provenance.

(** ** The balance after a reward *)



Section Balance.

Variable verify : string -> string -> string -> bool.


End Balance.

(** ** The amount in circulation *)











Section Supply.

Variable verify : string -> string -> string -> bool.




End Supply.

(** ** The theorems at concrete inputs *)


Lemma offerBlocks_reachable (now : Z) (blocks : list Block.t) :
  forall s, reachable demoVerify s ->
            reachable demoVerify (offerBlocks now blocks s).
Proof.
  induction blocks as [|block rest IH]; intros s R; [exact R|].
  unfold offerBlocks. cbn [fold_left]. apply IH.
  exact (reachable_step demoVerify s _ R (step_addBlock demoVerify now block s)).
Qed.

Lemma afterUnminedBlock_reachable : reachable demoVerify afterUnminedBlock.
Proof.
  exact (reachable_step demoVerify initialState _ (reachable_start demoVerify)
           (step_addBlock demoVerify 1734667284522 unminedBlock initialState)).
Qed.

(** The state in which the prescribed difficulty is -1 is reached by
    offering the ten blocks in turn. *)
Example sluggishState_reachable : reachable demoVerify sluggishState.
Proof.
  assert (E : offerBlocks 1734667574522 (tl sluggishChain) initialState
              = sluggishState) by (vm_compute; reflexivity).
  rewrite <- E. apply offerBlocks_reachable, reachable_start.
Qed.


(** X4 at the node that was offered one block. *)
Lemma reachable_chain_linked_witness :
  reachable demoVerify afterUnminedBlock
  /\ hd_error (blockchain afterUnminedBlock) = Some genesisBlock
  /\ linked_from None (blockchain afterUnminedBlock)
  /\ indexed_from 0 (blockchain afterUnminedBlock) = true.
Proof.
  split; [exact afterUnminedBlock_reachable|].
  exact (reachable_chain_linked demoVerify afterUnminedBlock
           afterUnminedBlock_reachable).
Defined.

(** X5 at the node that was offered one block. *)
Lemma reachable_ledger_witness :
  reachable demoVerify afterUnminedBlock
  /\ unspentTxOuts afterUnminedBlock = ledger_of (blockchain afterUnminedBlock).
Proof.
  split; [exact afterUnminedBlock_reachable|].
  exact (reachable_ledger demoVerify afterUnminedBlock
           afterUnminedBlock_reachable).
Defined.





(** X11 at the chain of eleven blocks mined 30 s apart. *)
Lemma generateRawBlock_negative_difficulty_witness :
  getDifficulty (blockchain sluggishState) = Return (-1)
  /\ -1 < 0
  /\ generateRawBlock demoVerify 1734667584522 1 1734667584522 [] sluggishState
     = Some (Throw "RangeError", sluggishState).
Proof.
  assert (G : getDifficulty (blockchain sluggishState) = Return (-1))
    by (vm_compute; reflexivity).
  assert (N : -1 < 0) by lia.
  split; [exact G|]. split; [exact N|].
  exact (proj2 (generateRawBlock_negative_difficulty demoVerify 1734667584522
                  O 1734667584522 [] sluggishState (-1) G N)).
Defined.


(** X13 at the starting node. *)
Lemma generateBlock_difficulty_zero_witness :
  blockchain initialState = ([] ++ [genesisBlock])%list
  /\ transactionPool initialState = []
  /\ getDifficulty (blockchain initialState) = Return 0
  /\ Block.timestamp genesisBlock - 60 < 1734667284522
  /\ 1734667284522 - 60 < 1734667284522
  /\ generateBlock demoVerify demoPublicOf 1734667284522 genesisKey 1
                   1734667284522 initialState
     = Some (Return (candidateBlock (Block.index genesisBlock + 1)
                       (Block.hash genesisBlock) 1734667284522
                       [getCoinbaseTransaction (demoPublicOf genesisKey)
                          (Block.index genesisBlock + 1)] 0 0),
             mkState (blockchain initialState
                      ++ [candidateBlock (Block.index genesisBlock + 1)
                            (Block.hash genesisBlock) 1734667284522
                            [getCoinbaseTransaction (demoPublicOf genesisKey)
                               (Block.index genesisBlock + 1)] 0 0])%list
                     (updateUnspentTxOuts
                        [getCoinbaseTransaction (demoPublicOf genesisKey)
                           (Block.index genesisBlock + 1)]
                        (unspentTxOuts initialState))
                     []).
Proof.
  assert (C : blockchain initialState = ([] ++ [genesisBlock])%list)
    by reflexivity.
  assert (P : transactionPool initialState = []) by reflexivity.
  assert (G : getDifficulty (blockchain initialState) = Return 0)
    by (vm_compute; reflexivity).
  assert (T1 : Block.timestamp genesisBlock - 60 < 1734667284522)
    by (cbn; lia).
  assert (T2 : 1734667284522 - 60 < 1734667284522) by lia.
  split; [exact C|]. split; [exact P|]. split; [exact G|].
  split; [exact T1|]. split; [exact T2|].
  exact (generateBlock_difficulty_zero demoVerify demoPublicOf 1734667284522
           genesisKey O 1734667284522 initialState [] genesisBlock
           C P G T1 T2).
Defined.


(** X16 at the node that was offered one block. *)
Lemma reachable_getDifficulty_returns_witness :
  reachable demoVerify afterUnminedBlock
  /\ exists (front : list Block.t) (lastBlock : Block.t) (difficulty : Z),
       blockchain afterUnminedBlock = (front ++ [lastBlock])%list
       /\ Block.index lastBlock = Z.of_nat (List.length front)
       /\ getLastBlock afterUnminedBlock = (Return lastBlock, afterUnminedBlock)
       /\ getDifficulty (blockchain afterUnminedBlock) = Return difficulty.
Proof.
  split; [exact afterUnminedBlock_reachable|].
  exact (reachable_getDifficulty_returns demoVerify afterUnminedBlock
           afterUnminedBlock_reachable).
Defined.

(** X17 at a node that holds a transfer of the genesis reward in its pool
    and accepts a block that carries it. *)
Lemma addBlock_leaves_spent_in_pool_witness :
  addBlock demoVerify 1734667284522 spendingBlock pendingState
  = (Return true, spentState)
  /\ In pooledTransfer (transactionPool spentState)
  /\ validateTransaction demoVerify pooledTransfer (unspentTxOuts spentState)
     = false.
Proof.
  assert (A : addBlock demoVerify 1734667284522 spendingBlock pendingState
              = (Return true, spentState)) by (vm_compute; reflexivity).
  split; [exact A|].
  set (txIn := TxIn.mk
                 "e655f6a5f26dc9b4cac6e46f52336428287759cf81ef5ff10854f69d68f43fa3"
                 0 (demoSign genesisKey (Transaction.id pooledTransfer))).
  assert (Hp : In pooledTransfer (transactionPool pendingState))
    by (left; reflexivity).
  assert (Hi : In txIn (Transaction.txIns pooledTransfer))
    by (left; reflexivity).
  assert (Hs : In pooledTransfer (Block.transactions spendingBlock))
    by (right; left; reflexivity).
  assert (Fresh : forall tx, In tx (Block.transactions spendingBlock) ->
                             Transaction.id tx <> TxIn.txOutId txIn).
  { intros tx [<-|[<-|[]]]; vm_compute; discriminate. }
  destruct (addBlock_leaves_spent_in_pool demoVerify demoPublicOf genesisKey
              1734667284522 spendingBlock pendingState spentState
              pooledTransfer pooledTransfer txIn txIn
              A Hp Hi Hs Hi eq_refl Fresh) as (P & V & _).
  split; [exact P | exact V].
Defined.

(** X18 at the starting node and the output of the genesis reward. *)
Lemma reachable_utxo_outputs_witness :
  reachable demoVerify initialState
  /\ In (UnspentTxOut.mk
           "e655f6a5f26dc9b4cac6e46f52336428287759cf81ef5ff10854f69d68f43fa3"
           0 genesisAddress 50)
        (unspentTxOuts initialState)
  /\ output_of (blockchain initialState)
       (UnspentTxOut.mk
          "e655f6a5f26dc9b4cac6e46f52336428287759cf81ef5ff10854f69d68f43fa3"
          0 genesisAddress 50).
Proof.
  assert (Hin : In (UnspentTxOut.mk
                      "e655f6a5f26dc9b4cac6e46f52336428287759cf81ef5ff10854f69d68f43fa3"
                      0 genesisAddress 50)
                   (unspentTxOuts initialState)) by (left; reflexivity).
  split; [exact (reachable_start demoVerify)|]. split; [exact Hin|].
  exact (proj1 (reachable_utxo_outputs demoVerify initialState _
                  (reachable_start demoVerify) Hin)).
Defined.


